(** * unitmgr: the reconciliation pass and its event loop

    A shallow embedding of [main.go]: the content fingerprint
    ([getChecksum]), the file copy ([copyFile]), the [systemd] interface with
    its two implementations ([systemctl] and the test double [fakeSystemd]),
    the reconciliation pass ([sync]) and the event loop ([runLoop], with the
    closure [main] hands to it).

    The collaborators the program talks to are modelled as explicit state:
    the file system is a finite map from (directory, entry) to bytes together
    with a table of injected faults, the service manager is the set of active
    units with a journal of the commands it was sent. *)

From Stdlib Require Import ZArith Ascii String List Lia.
From stdpp Require Import base option list gmap sets strings.

Open Scope Z_scope.

(** ** crypto/sha256 and encoding/hex

    [getChecksum] feeds the file to [sha256.New()] and renders [h.Sum(nil)]
    with [hex.EncodeToString].  Words are [Z] in [0, 2^32) with the
    wrap-around written out. *)

Module Sha256.

Definition mask32 : Z := 0xffffffff.
Definition wrap (x : Z) : Z := Z.land x mask32.
Definition add32 (x y : Z) : Z := wrap (x + y).
Definition not32 (x : Z) : Z := Z.lxor x mask32.
(* bits.RotateLeft32(x, -n) *)
Definition rotr (x n : Z) : Z :=
  Z.lor (Z.shiftr x n) (wrap (Z.shiftl x (32 - n))).

(* _K[i] *)
Definition _K (i : Z) : Z :=
  match i with
  | 0 => 0x428a2f98 | 1 => 0x71374491
  | 2 => 0xb5c0fbcf | 3 => 0xe9b5dba5
  | 4 => 0x3956c25b | 5 => 0x59f111f1
  | 6 => 0x923f82a4 | 7 => 0xab1c5ed5
  | 8 => 0xd807aa98 | 9 => 0x12835b01
  | 10 => 0x243185be | 11 => 0x550c7dc3
  | 12 => 0x72be5d74 | 13 => 0x80deb1fe
  | 14 => 0x9bdc06a7 | 15 => 0xc19bf174
  | 16 => 0xe49b69c1 | 17 => 0xefbe4786
  | 18 => 0x0fc19dc6 | 19 => 0x240ca1cc
  | 20 => 0x2de92c6f | 21 => 0x4a7484aa
  | 22 => 0x5cb0a9dc | 23 => 0x76f988da
  | 24 => 0x983e5152 | 25 => 0xa831c66d
  | 26 => 0xb00327c8 | 27 => 0xbf597fc7
  | 28 => 0xc6e00bf3 | 29 => 0xd5a79147
  | 30 => 0x06ca6351 | 31 => 0x14292967
  | 32 => 0x27b70a85 | 33 => 0x2e1b2138
  | 34 => 0x4d2c6dfc | 35 => 0x53380d13
  | 36 => 0x650a7354 | 37 => 0x766a0abb
  | 38 => 0x81c2c92e | 39 => 0x92722c85
  | 40 => 0xa2bfe8a1 | 41 => 0xa81a664b
  | 42 => 0xc24b8b70 | 43 => 0xc76c51a3
  | 44 => 0xd192e819 | 45 => 0xd6990624
  | 46 => 0xf40e3585 | 47 => 0x106aa070
  | 48 => 0x19a4c116 | 49 => 0x1e376c08
  | 50 => 0x2748774c | 51 => 0x34b0bcb5
  | 52 => 0x391c0cb3 | 53 => 0x4ed8aa4a
  | 54 => 0x5b9cca4f | 55 => 0x682e6ff3
  | 56 => 0x748f82ee | 57 => 0x78a5636f
  | 58 => 0x84c87814 | 59 => 0x8cc70208
  | 60 => 0x90befffa | 61 => 0xa4506ceb
  | 62 => 0xbef9a3f7 | 63 => 0xc67178f2
  | _ => 0
  end.

(** The eight chaining words of a digest. *)
Record digest := Digest {
  h0 : Z; h1 : Z; h2 : Z; h3 : Z; h4 : Z; h5 : Z; h6 : Z; h7 : Z }.

Definition init : digest :=
  Digest 0x6a09e667 0xbb67ae85 0x3c6ef372 0xa54ff53a
         0x510e527f 0x9b05688c 0x1f83d9ab 0x5be0cd19.

Definition word_at (w : list Z) (i : nat) : Z := nth i w 0.

(* w[i] = uint32(p[j])<<24 | uint32(p[j+1])<<16 | uint32(p[j+2])<<8 | uint32(p[j+3]) *)
Fixpoint load_words (n : nat) (p : list Z) : list Z :=
  match n, p with
  | S n', b0 :: b1 :: b2 :: b3 :: rest =>
      Z.lor (Z.lor (Z.lor (Z.shiftl b0 24) (Z.shiftl b1 16)) (Z.shiftl b2 8)) b3
      :: load_words n' rest
  | _, _ => []
  end.

(* the loop  for i := 16; i < 64; i++  that extends the schedule *)
Fixpoint extend (fuel : nat) (w : list Z) : list Z :=
  match fuel with
  | O => w
  | S fuel' =>
      let i := length w in
      let v1 := word_at w (i - 2) in
      let t1 := Z.lxor (Z.lxor (rotr v1 17) (rotr v1 19)) (Z.shiftr v1 10) in
      let v2 := word_at w (i - 15) in
      let t2 := Z.lxor (Z.lxor (rotr v2 7) (rotr v2 18)) (Z.shiftr v2 3) in
      extend fuel'
        (w ++ [add32 (add32 (add32 t1 (word_at w (i - 7))) t2) (word_at w (i - 16))])
  end.

(* one turn of the loop  for i := 0; i < 64; i++  with w[i] *)
Definition round (s : digest) (iw : Z * Z) : digest :=
  let '(Digest a b c d e f g h) := s in
  let t1 :=
    add32 (add32 (add32 (add32 h
      (Z.lxor (Z.lxor (rotr e 6) (rotr e 11)) (rotr e 25)))
      (Z.lxor (Z.land e f) (Z.land (not32 e) g)))
      (_K (fst iw))) (snd iw) in
  let t2 :=
    add32 (Z.lxor (Z.lxor (rotr a 2) (rotr a 13)) (rotr a 22))
          (Z.lxor (Z.lxor (Z.land a b) (Z.land a c)) (Z.land b c)) in
  Digest (add32 t1 t2) a b c (add32 d t1) e f g.

(* one 64-byte chunk *)
Definition block (dig : digest) (p : list Z) : digest :=
  let w := extend 48 (load_words 16 p) in
  let r := fold_left round (combine (map Z.of_nat (seq 0 64)) w) dig in
  Digest (add32 (h0 dig) (h0 r)) (add32 (h1 dig) (h1 r))
         (add32 (h2 dig) (h2 r)) (add32 (h3 dig) (h3 r))
         (add32 (h4 dig) (h4 r)) (add32 (h5 dig) (h5 r))
         (add32 (h6 dig) (h6 r)) (add32 (h7 dig) (h7 r)).

Fixpoint blocks (fuel : nat) (dig : digest) (p : list Z) : digest :=
  match fuel with
  | O => dig
  | S fuel' =>
      match p with
      | [] => dig
      | _ => blocks fuel' (block dig (firstn 64 p)) (skipn 64 p)
      end
  end.

(* big-endian bytes of a [k]-byte quantity *)
Fixpoint be_bytes (k : nat) (x : Z) : list Z :=
  match k with
  | O => []
  | S k' => Z.land (Z.shiftr x (8 * Z.of_nat k')) 0xff :: be_bytes k' x
  end.

(* 0x80, then zeros up to 56 mod 64, then the length in bits on 8 bytes *)
Definition pad (msg : list Z) : list Z :=
  let len := Z.of_nat (length msg) in
  let zeros := Z.to_nat ((55 - len) mod 64) in
  msg ++ [0x80] ++ repeat 0 zeros ++ be_bytes 8 (Z.land (8 * len) 0xffffffffffffffff).

Definition sum_bytes (d : digest) : list Z :=
  be_bytes 4 (h0 d) ++ be_bytes 4 (h1 d) ++ be_bytes 4 (h2 d) ++ be_bytes 4 (h3 d) ++
  be_bytes 4 (h4 d) ++ be_bytes 4 (h5 d) ++ be_bytes 4 (h6 d) ++ be_bytes 4 (h7 d).

(** [h.Sum(nil)] after the whole message was written to [h]. *)
Definition sum256 (msg : list Z) : list Z :=
  let p := pad msg in
  sum_bytes (blocks (length p) init p).

End Sha256.

Module Hex.

Definition hextable : list ascii :=
  list_ascii_of_string "0123456789abcdef".

Definition digit (n : Z) : ascii := nth (Z.to_nat n) hextable "0"%char.

(* dst[j] = hextable[v>>4]; dst[j+1] = hextable[v&0x0f] *)
Fixpoint encode (src : list Z) : list ascii :=
  match src with
  | [] => []
  | v :: rest => digit (Z.shiftr v 4) :: digit (Z.land v 0x0f) :: encode rest
  end.

Definition EncodeToString (src : list Z) : string :=
  string_of_list_ascii (encode src).

End Hex.

(** File contents are bytes; the hash works on their values. *)
Definition byte_value (b : Byte.byte) : Z := Z.of_N (Byte.to_N b).

Definition bytes_of_string (s : string) : list Byte.byte :=
  list_byte_of_string s.

(** The fingerprint [getChecksum] returns for a file that holds [data]. *)
Definition fingerprint (data : list Byte.byte) : string :=
  Hex.EncodeToString (Sha256.sum256 (map byte_value data)).

(** ** Errors

    Go's [error] values.  A missing file is the one condition [os.IsNotExist]
    recognises; every other file-system failure is an injected [fault]. *)

Inductive fault := EACCES | EISDIR | EIO | ENOSPC.

Inductive error :=
  | ENOENT                            (* no such file or directory *)
  | EFault (f : fault)                (* any other failure of a file operation *)
  | ExitError                         (* a command that exits non-zero or is killed at its deadline *)
  | ErrSystemctlMsg (out : string)    (* "systemctl error msg: %s" *)
  | ErrSystemctl (cause : error)      (* "systemctl error: %w" *)
  | ErrWatcher (cause : error).       (* "watcher error: %w" *)

(* err != nil *)
Definition not_nil (err : option error) : bool :=
  match err with Some _ => true | None => false end.

Definition IsNotExist (err : option error) : bool :=
  match err with Some ENOENT => true | _ => false end.

(** ** strings and path *)

Definition HasSuffix (s suffix : string) : bool :=
  (String.length suffix <=? String.length s)%nat &&
  String.eqb
    (substring (String.length s - String.length suffix) (String.length suffix) s)
    suffix.

Definition slash : ascii := "/"%char.

Definition is_slash (c : ascii) : bool := Ascii.eqb c slash.

Fixpoint drop_slashes (l : list ascii) : list ascii :=
  match l with
  | c :: l' => if is_slash c then drop_slashes l' else l
  | [] => []
  end.

Fixpoint until_slash (l : list ascii) : list ascii :=
  match l with
  | c :: l' => if is_slash c then [] else c :: until_slash l'
  | [] => []
  end.

(** [path.Base]: the last element of the path, trailing slashes removed. *)
Definition path_Base (p : string) : string :=
  match p with
  | EmptyString => "."
  | _ =>
      let stripped := drop_slashes (rev (list_ascii_of_string p)) in
      match rev (until_slash stripped) with
      | [] => "/"
      | last => string_of_list_ascii last
      end
  end.

(** [path.Join(dir, unit)].  A file is named here by the directory it lives
    in and its entry name there, kept as a pair.  The pair stands for the
    cleaned path Go returns where [unit] is an entry name (not empty, no
    slash, not [.] or [..]) and a directory goes by one spelling: [/units]
    and [/units/], one directory to Go, are two here, and a unit [.] would
    name the directory itself.  The units of a run of [main] are entry names
    ([run_of_main_keys] below). *)
Definition path_Join (dir unit : string) : string * string := (dir, unit).

(** ** The file system

    Regular files only, each under the directory and entry name the program
    reaches it by; what [ReadDir] returns for a directory is kept apart from
    the files, so that a listing can name a file that is gone when it is
    opened.  [fs_fault] makes single operations on single files fail for
    reasons other than a missing file; where reading or writing a file
    fails, [fs_partial] says how many bytes get through before it does. *)

Inductive fs_op := OpOpen | OpRead | OpCreate | OpWrite | OpStat | OpRemove.

Record filesys := Filesys {
  fs_files : gmap (string * string) (list Byte.byte);   (* regular files *)
  fs_dirs : gmap string (list string);                  (* what ReadDir returns *)
  fs_fault : fs_op → string * string → option fault;    (* operations that fail *)
  fs_partial : string * string → nat                    (* bytes a failing read or write lets through *)
}.

Definition with_files (files : gmap (string * string) (list Byte.byte))
    (fs : filesys) : filesys :=
  Filesys files (fs_dirs fs) (fs_fault fs) (fs_partial fs).

Definition ReadDir (fs : filesys) (dir : string) : list string * option error :=
  match fs_dirs fs !! dir with
  | Some names => (names, None)
  | None => ([], Some ENOENT)
  end.

Definition os_Open (fs : filesys) (name : string * string) : option error :=
  match fs_fault fs OpOpen name with
  | Some f => Some (EFault f)
  | None =>
      match fs_files fs !! name with
      | Some _ => None
      | None => Some ENOENT
      end
  end.

(* io.Copy(h, file) into the hash: reading an open file to its end; the
   bytes read before an error are of no use to the caller *)
Definition read_all (fs : filesys) (name : string * string)
    : list Byte.byte * option error :=
  match fs_fault fs OpRead name with
  | Some f => ([], Some (EFault f))
  | None => (default [] (fs_files fs !! name), None)
  end.

(* os.Create: the file exists and is empty afterwards *)
Definition os_Create (fs : filesys) (name : string * string)
    : filesys * option error :=
  match fs_fault fs OpCreate name with
  | Some f => (fs, Some (EFault f))
  | None => (with_files (<[name := []]> (fs_files fs)) fs, None)
  end.

(* io.Copy(destf, srcf): the bytes of the source reach the destination in
   order, until the end of the source or the first error.  A read that fails
   does so once [fs_partial] bytes are read; a write that fails does so once
   [fs_partial] bytes are written, if there are more to write.  What was
   written by then stays in the destination. *)
Definition io_Copy (fs : filesys) (dest src : string * string)
    : filesys * option error :=
  let data := default [] (fs_files fs !! src) in
  let '(got, rerr) :=
    match fs_fault fs OpRead src with
    | Some f => (take (fs_partial fs src) data, Some (EFault f))
    | None => (data, None)
    end in
  match fs_fault fs OpWrite dest with
  | Some f =>
      if (fs_partial fs dest <? length got)%nat
      then (with_files (<[dest := take (fs_partial fs dest) got]> (fs_files fs)) fs,
            Some (EFault f))
      else (with_files (<[dest := got]> (fs_files fs)) fs, rerr)
  | None => (with_files (<[dest := got]> (fs_files fs)) fs, rerr)
  end.

(* os.Stat on the path of a regular file; a directory, on which Go's stat
   succeeds as well, has no entry in [fs_files] *)
Definition os_Stat (fs : filesys) (name : string * string) : option error :=
  match fs_fault fs OpStat name with
  | Some f => Some (EFault f)
  | None =>
      match fs_files fs !! name with
      | Some _ => None
      | None => Some ENOENT
      end
  end.

Definition os_Remove (fs : filesys) (name : string * string)
    : filesys * option error :=
  match fs_fault fs OpRemove name with
  | Some f => (fs, Some (EFault f))
  | None =>
      match fs_files fs !! name with
      | Some _ => (with_files (delete name (fs_files fs)) fs, None)
      | None => (fs, Some ENOENT)
      end
  end.

Definition getChecksum (fs : filesys) (name : string * string)
    : string * option error :=
  match os_Open fs name with
  | Some err => (""%string, Some err)
  | None =>
      match read_all fs name with
      | (_, Some err) => (""%string, Some err)
      | (data, None) => (fingerprint data, None)
      end
  end.

Definition copyFile (src dest : string * string) (fs : filesys)
    : filesys * option error :=
  match os_Open fs src with
  | Some err => (fs, Some err)
  | None =>
      match os_Create fs dest with
      | (fs1, Some err) => (fs1, Some err)
      | (fs1, None) => io_Copy fs1 dest src
      end
  end.

(** ** The control interface

    The Go interface [systemd]; an implementation carries its own state [S],
    which every call may change. *)

Class systemd (S : Type) := {
  Restart : string → S → S * option error;
  EnsureRunning : string → S → S * (bool * option error);
  EnsureStopped : string → S → S * (bool * option error)
}.

(** *** systemctl

    What the [systemctl] binary acts on: the set of active units.  A command
    listed in [m_faulty] fails, printing the output given there (a timeout of
    the call's context is such a failure); every command run is appended to
    [m_journal].  The [Timeout] field of the Go struct only bounds the real
    time of a call and has no counterpart here. *)

Record manager := Manager {
  m_active : gset string;
  m_faulty : list string → option string;
  m_journal : list (list string)
}.

Definition cmd_effect (args : list string) (active : gset string) : gset string :=
  match args with
  | [verb; unit] =>
      if decide (verb = "restart"%string) then active ∪ {[unit]}
      else if decide (verb = "stop"%string) then active ∖ {[unit]}
      else active
  | _ => active
  end.

Definition cmd_status (args : list string) (active : gset string) : option error :=
  match args with
  | [verb; _; unit] =>
      if decide (verb = "is-active"%string)
      then (if decide (unit ∈ active) then None else Some ExitError)
      else None
  | _ => None
  end.

(* exec.CommandContext(ctx, "systemctl", args...) run to completion:
   the combined output and the error *)
Definition systemctl_cmd (args : list string) (m : manager)
    : manager * (string * option error) :=
  match m_faulty m args with
  | Some out =>
      (Manager (m_active m) (m_faulty m) (m_journal m ++ [args]), (out, Some ExitError))
  | None =>
      (Manager (cmd_effect args (m_active m)) (m_faulty m) (m_journal m ++ [args]),
       (""%string, cmd_status args (m_active m)))
  end.

Definition isRunning (unit : string) (m : manager) : manager * bool :=
  let '(m', (_, err)) := systemctl_cmd ["is-active"; "--quiet"; unit]%string m in
  (m', negb (not_nil err)).

Definition exec (args : list string) (m : manager) : manager * option error :=
  let '(m', (out, err)) := systemctl_cmd args m in
  match err with
  | None => (m', None)
  | Some e =>
      if (0 <? String.length out)%nat
      then (m', Some (ErrSystemctlMsg out))
      else (m', Some (ErrSystemctl e))
  end.

Definition systemctl_Restart (unit : string) (m : manager) : manager * option error :=
  match exec ["daemon-reload"%string] m with
  | (m1, Some err) => (m1, Some err)
  | (m1, None) => exec ["restart"; unit]%string m1
  end.

Definition systemctl_EnsureRunning (unit : string) (m : manager)
    : manager * (bool * option error) :=
  let '(m1, running) := isRunning unit m in
  if running then (m1, (false, None))   (* already running *)
  else let '(m2, err) := exec ["restart"; unit]%string m1 in (m2, (true, err)).

Definition systemctl_EnsureStopped (unit : string) (m : manager)
    : manager * (bool * option error) :=
  let '(m1, running) := isRunning unit m in
  if negb running then (m1, (false, None))   (* already stopped *)
  else let '(m2, err) := exec ["stop"; unit]%string m1 in (m2, (true, err)).

#[export] Instance systemctl : systemd manager := {
  Restart := systemctl_Restart;
  EnsureRunning := systemctl_EnsureRunning;
  EnsureStopped := systemctl_EnsureStopped
}.

(** The commands of a journal that act on units: everything but the
    [is-active] queries. *)
Definition is_action (args : list string) : bool :=
  match args with
  | verb :: _ => negb (String.eqb verb "is-active")
  | [] => false
  end.

Definition actions (journal : list (list string)) : list (list string) :=
  List.filter is_action journal.

(** *** fakeSystemd, the implementation the tests use *)

Record fakeSystemd := FakeSystemd { LastCmd : string }.

Definition fakeSystemd_Restart (unit : string) (f : fakeSystemd)
    : fakeSystemd * option error :=
  (FakeSystemd ("Restart " +:+ unit), None).

Definition fakeSystemd_EnsureRunning (unit : string) (f : fakeSystemd)
    : fakeSystemd * (bool * option error) :=
  (FakeSystemd ("EnsureRunning " +:+ unit), (false, None)).

Definition fakeSystemd_EnsureStopped (unit : string) (f : fakeSystemd)
    : fakeSystemd * (bool * option error) :=
  (FakeSystemd ("EnsureStopped " +:+ unit), (false, None)).

#[export] Instance fake : systemd fakeSystemd := {
  Restart := fakeSystemd_Restart;
  EnsureRunning := fakeSystemd_EnsureRunning;
  EnsureStopped := fakeSystemd_EnsureStopped
}.

(** ** The reconciliation pass *)

(** One constructor per [log.Printf] call of [sync]; [err] is the value of
    the Go variable printed. *)
Inductive log_entry :=
  | LogListErr (err : option error)
  | LogReadErr (unit : string) (err : option error)
  | LogReadCurrentErr (unit : string) (err : option error)
  | LogCopyErr (unit : string) (err : option error)
  | LogWrote (unit : string)
  | LogEnsureRunningErr (unit : string) (err : option error)
  | LogStarted (unit : string)
  | LogRestartErr (unit : string) (err : option error)
  | LogRestarted (unit : string)
  | LogStopErr (unit : string) (err : option error)
  | LogStopped (unit : string)
  | LogRemoveErr (unit : string) (err : option error)
  | LogRemoved (unit : string).

(** Everything a pass reads and writes: the file system, the control
    interface, the log, the map [state] that [main] allocates once and hands
    to every pass, and the local [ok]. *)
Record pass (S : Type) := Pass {
  p_fs : filesys;
  p_sysd : S;
  p_log : list log_entry;
  p_state : gmap string string;
  p_ok : bool
}.
Arguments Pass {S}.
Arguments p_fs {S}.
Arguments p_sysd {S}.
Arguments p_log {S}.
Arguments p_state {S}.
Arguments p_ok {S}.

Section Pass.
Context {S : Type}.

Definition with_fs (fs : filesys) (p : pass S) : pass S :=
  Pass fs (p_sysd p) (p_log p) (p_state p) (p_ok p).
Definition with_sysd (sd : S) (p : pass S) : pass S :=
  Pass (p_fs p) sd (p_log p) (p_state p) (p_ok p).
Definition with_state (st : gmap string string) (p : pass S) : pass S :=
  Pass (p_fs p) (p_sysd p) (p_log p) st (p_ok p).
Definition with_ok (b : bool) (p : pass S) : pass S :=
  Pass (p_fs p) (p_sysd p) (p_log p) (p_state p) b.
(* log.Printf *)
Definition logf (e : log_entry) (p : pass S) : pass S :=
  Pass (p_fs p) (p_sysd p) (p_log p ++ [e]) (p_state p) (p_ok p).
(* log the error; ok = false; continue *)
Definition fail (e : log_entry) (p : pass S) : pass S :=
  with_ok false (logf e p).

(* state[unit]: the zero value for a key that is not there *)
Definition state_get (st : gmap string string) (unit : string) : string :=
  default ""%string (st !! unit).

Context `{!systemd S}.

(** Lines 128-153: the unit file is in place; make the unit run it. *)
Definition sync_apply (unit checksum currentChecksum : string) (p : pass S) : pass S :=
  if decide (checksum = currentChecksum ∨ currentChecksum = ""%string) then
    let '(sd, (changed, err)) := EnsureRunning unit (p_sysd p) in
    let p := with_sysd sd p in
    if not_nil err then fail (LogEnsureRunningErr unit err) p
    else
      let p := if changed then logf (LogStarted unit) p else p in
      with_state (<[unit := checksum]> (p_state p)) p
  else if decide (checksum ≠ state_get (p_state p) unit) then
    let '(sd, err) := Restart unit (p_sysd p) in
    let p := with_sysd sd p in
    if not_nil err then fail (LogRestartErr unit err) p
    else with_state (<[unit := checksum]> (p_state p)) (logf (LogRestarted unit) p)
  else p.

(** Lines 118-153: bring the unit file in sync, then [sync_apply]. *)
Definition sync_install (unit : string) (name target : string * string)
    (checksum currentChecksum : string) (p : pass S) : pass S :=
  if decide (checksum ≠ currentChecksum) then
    let '(fs', err) := copyFile name target (p_fs p) in
    let p := with_fs fs' p in
    if not_nil err then fail (LogCopyErr unit err) p
    else sync_apply unit checksum currentChecksum (logf (LogWrote unit) p)
  else sync_apply unit checksum currentChecksum p.

(** Lines 93-154: the body of the loop over the directory listing. *)
Definition sync_entry (src dest : string) (entry : string) (p : pass S) : pass S :=
  if HasSuffix entry ".swp" || HasSuffix entry "~" then p   (* skip vim files *)
  else
    let unit := path_Base entry in
    let name := path_Join src unit in
    let '(checksum, err) := getChecksum (p_fs p) name in
    if not_nil err then fail (LogReadErr unit err) p
    else if IsNotExist err then p
    else
      let target := path_Join dest unit in
      let '(currentChecksum, err) := getChecksum (p_fs p) target in
      if not_nil err && negb (IsNotExist err)
      then fail (LogReadCurrentErr unit err) p
      else sync_install unit name target checksum currentChecksum p.

(** Lines 157-179: the body of the loop over the keys of [state]. *)
Definition sync_cleanup (src dest : string) (unit : string) (p : pass S) : pass S :=
  if negb (not_nil (os_Stat (p_fs p) (path_Join src unit))) then p   (* file still exists *)
  else
    let '(sd, (changed, err)) := EnsureStopped unit (p_sysd p) in
    let p := with_sysd sd p in
    if not_nil err then fail (LogStopErr unit err) p
    else
      let p := if changed then logf (LogStopped unit) p else p in
      let target := path_Join dest unit in
      let '(fs', err) := os_Remove (p_fs p) target in
      let p := with_fs fs' p in
      if not_nil err then fail (LogRemoveErr unit err) p
      else with_state (delete unit (p_state p)) (logf (LogRemoved unit) p).

(** The two loops. *)
Definition sync_entries (src dest : string) (files : list string) (p : pass S) : pass S :=
  fold_left (λ p entry, sync_entry src dest entry p) files p.

Definition sync_cleanups (src dest : string) (units : list string) (p : pass S) : pass S :=
  fold_left (λ p unit, sync_cleanup src dest unit p) units p.

(** [sync].  The argument holds the collaborators and the map as the call
    finds them (its [p_ok] is not read: [ok := true]); the result holds them
    as the call leaves them, and [p_ok] of the result is the value returned.
    [range] is the order in which [for unit := range state] visits the keys,
    which Go leaves unspecified. *)
Definition sync (range : gmap string string → list string)
    (src dest : string) (p : pass S) : pass S :=
  let '(files, err) := ReadDir (p_fs p) src in
  if not_nil err then fail (LogListErr err) p
  else
    let p := sync_entries src dest files (with_ok true p) in
    sync_cleanups src dest (range (p_state p)) p.

End Pass.

(** An order in which [range] may visit a map: each key once. *)
Definition range_order (range : gmap string string → list string) : Prop :=
  ∀ m, range m ≡ₚ elements (dom m).

Definition sorted_keys (m : gmap string string) : list string := elements (dom m).

(** ** The event loop *)

Module fsnotify.

(* Op is a bit mask: Create Op = 1 << iota, then Write, Remove, Rename, Chmod *)
Definition Create : N := 1.
Definition Write : N := 2.
Definition Remove : N := 4.
Definition Rename : N := 8.
Definition Chmod : N := 16.

Record Event := mkEvent { Name : string; Op : N }.

End fsnotify.

(** What one [select] of [runLoop] receives.  With [ok = false] the channel
    was closed and the value received with it is not looked at. *)
Inductive received :=
  | TickerC                                             (* <-ticker.C *)
  | WatcherEvents (event : fsnotify.Event) (ok : bool)  (* event, ok := <-watcher.Events *)
  | WatcherErrors (err : error) (ok : bool).            (* err, ok := <-watcher.Errors *)

(** The loop between two [select]s: the delay the timer is armed with, the
    arguments of the [ticker.Reset] calls so far, and whatever [fn] closes
    over. *)
Record loop (Env : Type) := Loop {
  l_ticker : Z;
  l_resets : list Z;
  l_env : Env
}.
Arguments Loop {Env}.
Arguments l_ticker {Env}.
Arguments l_resets {Env}.
Arguments l_env {Env}.

Inductive outcome (Env : Type) :=
  | Running (l : loop Env)                        (* back at the [select] *)
  | Returned (l : loop Env) (err : option error). (* [runLoop] returned [err] *)
Arguments Running {Env}.
Arguments Returned {Env}.

Section RunLoop.
Context {Env : Type}.
Variable fn : Env → Env * Z.

(* ticker.Reset(fn()) *)
Definition reset_fn (l : loop Env) : loop Env :=
  let '(env, d) := fn (l_env l) in
  Loop d (l_resets l ++ [d]) env.

Definition is_change (op : N) : bool :=
  (op =? fsnotify.Write)%N || (op =? fsnotify.Create)%N ||
  (op =? fsnotify.Remove)%N || (op =? fsnotify.Rename)%N.

(** One iteration of the [for] of [runLoop]. *)
Definition runLoop_step (r : received) (l : loop Env) : outcome Env :=
  match r with
  | TickerC => Running (reset_fn l)
  | WatcherEvents event ok =>
      if negb ok then Returned l None
      else if is_change (fsnotify.Op event) then Running (reset_fn l)
      else Running l
  | WatcherErrors err ok =>
      if negb ok then Returned l None
      else Returned l (Some (ErrWatcher err))
  end.

Fixpoint runLoop_from (rs : list received) (l : loop Env) : outcome Env :=
  match rs with
  | [] => Running l
  | r :: rs' =>
      match runLoop_step r l with
      | Running l' => runLoop_from rs' l'
      | Returned l' err => Returned l' err
      end
  end.

(** [runLoop]: [ticker := time.NewTimer(1)], then the loop, here over the
    receptions [rs]. *)
Definition runLoop (rs : list received) (env : Env) : outcome Env :=
  runLoop_from rs (Loop 1 [] env).

End RunLoop.


(** [state := map[string]string{}] with the collaborators [main] starts with. *)
Definition main_init {S : Type} (fs : filesys) (sd : S) : pass S :=
  Pass fs sd [] ∅ true.

(** Receptions that make the loop call [fn]. *)
Definition triggers (r : received) : bool :=
  match r with
  | TickerC => true
  | WatcherEvents event ok => ok && is_change (fsnotify.Op event)
  | WatcherErrors _ _ => false
  end.

(** ** Vocabulary of the properties *)

(** An entry the first loop skips. *)
Definition skipped (entry : string) : bool :=
  HasSuffix entry ".swp" || HasSuffix entry "~".

(** A directory entry name as [ReadDir] returns them: not empty, no slash. *)
Definition plain (entry : string) : Prop :=
  entry ≠ ""%string ∧ slash ∉ list_ascii_of_string entry.

(** The Desired Set of a listing. *)
Definition desired (files : list string) : gset string :=
  list_to_set (List.filter (λ e, negb (skipped e)) files).

(** The part of the file system no operation changes. *)
Definition same_env (fs fs' : filesys) : Prop :=
  fs_dirs fs' = fs_dirs fs ∧ fs_fault fs' = fs_fault fs.

(** No value of the map is the empty string. *)
Definition no_empty (st : gmap string string) : Prop :=
  ∀ u, st !! u ≠ Some ""%string.


(** No operation on the file system fails for a reason other than a missing
    file. *)
Definition healthy (fs : filesys) : Prop := ∀ op q, fs_fault fs op q = None.

(** [stat] on the entries of [src] fails only for a missing file. *)
Definition stat_reliable (fs : filesys) (src : string) : Prop :=
  ∀ u, fs_fault fs OpStat (src, u) = None.


(** The listing of [src] is [files]: plain names, one for each file. *)
Definition listing (fs : filesys) (src : string) (files : list string) : Prop :=
  fs_dirs fs !! src = Some files ∧ Forall plain files ∧
  ∀ u, u ∈ files ↔ is_Some (fs_files fs !! (src, u)).

(** No key of the map is a name the first loop skips. *)
Definition units_only (st : gmap string string) : Prop :=
  ∀ u, is_Some (st !! u) → skipped u = false.

(** No operation fails. *)
Definition no_faults : fs_op → string * string → option fault := λ _ _, None.

(** A read or a write that fails lets no byte through. *)
Definition at_once : string * string → nat := λ _, 0%nat.

(** The boolean form of [plain]. *)
Definition plainb (entry : string) : bool :=
  negb (String.eqb entry "") &&
  negb (existsb is_slash (list_ascii_of_string entry)).

(** *** Concrete collaborators

    A source directory [/units] and a destination directory [/etc], each
    given by the names and contents of its files; nothing fails. *)
Definition dir_files (dir : string) (l : list (string * string))
    : gmap (string * string) (list Byte.byte) :=
  list_to_map ((λ nc, ((dir, nc.1), bytes_of_string nc.2)) <$> l).

Definition testfs (units etc : list (string * string)) : filesys :=
  Filesys (dir_files "/units" units ∪ dir_files "/etc" etc)
          {[ "/units"%string := units.*1 ]} no_faults at_once.

(** The query [isRunning] runs. *)
Definition is_active_query (unit : string) : list string :=
  ["is-active"; "--quiet"; unit]%string.

(** Every [stat] fails with a permission error; nothing else fails. *)
Definition stat_denied : fs_op → string * string → option fault :=
  λ op _, match op with OpStat => Some EACCES | _ => None end.

(** A service manager in which [units] are active and no command fails. *)
Definition manager_with (units : list string) : manager :=
  Manager (list_to_set units) (λ _, None) [].


(** The manager [m'] is [m] after some commands, each of which satisfies [P]
    and none of which changed what fails. *)
Definition after_commands (P : list string → Prop) (m m' : manager) : Prop :=
  m_faulty m' = m_faulty m ∧
  ∃ ext, m_journal m' = m_journal m ++ ext ∧ Forall P ext.

(** The passes [main] can ever hand to [sync]: it starts with the empty map,
    every pass leaves the map to the next one, and between two passes the
    file system and the service manager may change in any way. *)
Inductive reachable {S : Type} `{!systemd S} (src dest : string) : pass S → Prop :=
  | reach_init fs sd : reachable src dest (main_init fs sd)
  | reach_sync range p :
      reachable src dest p → reachable src dest (sync range src dest p)
  | reach_world fs sd p :
      reachable src dest p → reachable src dest (with_sysd sd (with_fs fs p)).

(** Idempotence as the specification words it: after a pass that returned
    true, with a file system and a service manager in which nothing fails, a
    second pass over the unchanged collaborators. *)
Definition idempotence_claim : Prop :=
  ∀ (range1 range2 : gmap string string → list string) (src dest : string)
    (p0 : pass manager) (files : list string),
    range_order range1 → range_order range2 →
    healthy (p_fs p0) → listing (p_fs p0) src files →
    (∀ args, m_faulty (p_sysd p0) args = None) →
    let p1 := sync range1 src dest p0 in
    p_ok p1 = true →
    let p2 := sync range2 src dest p1 in
    p_ok p2 = true ∧ p_state p2 = p_state p1 ∧ p_fs p2 = p_fs p1 ∧
    actions (m_journal (p_sysd p2)) = actions (m_journal (p_sysd p1)).

(** What a pass that changes nothing leaves of the pass [p1] it starts
    from: everything but the queries added to the journal. *)
Definition unchanged (p1 q : pass manager) : Prop :=
  p_fs q = p_fs p1 ∧ p_state q = p_state p1 ∧ p_log q = p_log p1 ∧
  p_ok q = p_ok p1 ∧
  m_active (p_sysd q) = m_active (p_sysd p1) ∧
  m_faulty (p_sysd q) = m_faulty (p_sysd p1) ∧
  actions (m_journal (p_sysd q)) = actions (m_journal (p_sysd p1)).

(** A name [ReadDir] returns: an entry of the directory, never the directory
    itself or its parent. *)
Definition entry_name (e : string) : Prop :=
  plain e ∧ e ≠ "."%string ∧ e ≠ ".."%string.







(** ** Vocabulary of the further properties *)

(** The log lines that report an error. *)
Definition is_error_entry (e : log_entry) : bool :=
  match e with
  | LogListErr _ | LogReadErr _ _ | LogReadCurrentErr _ _ | LogCopyErr _ _
  | LogEnsureRunningErr _ _ | LogRestartErr _ _ | LogStopErr _ _
  | LogRemoveErr _ _ => true
  | LogWrote _ | LogStarted _ | LogRestarted _ | LogStopped _ | LogRemoved _ => false
  end.

(** From [p] to [p'] the log has grown by some lines, and [ok] was cleared
    exactly if one of them reports an error. *)
Definition logged_since {S : Type} (p p' : pass S) : Prop :=
  ∃ ext, p_log p' = p_log p ++ ext ∧
         p_ok p' = p_ok p && negb (existsb is_error_entry ext).

(** What a reception makes [runLoop] return, if it does: [nil] for a closed
    channel, the wrapped error for an error of the watcher. *)
Definition closes (r : received) : option (option error) :=
  match r with
  | TickerC => None
  | WatcherEvents _ ok => if ok then None else Some None
  | WatcherErrors err ok => if ok then Some (Some (ErrWatcher err)) else Some None
  end.

(** A service manager in which [units] are active and the commands [bad]
    fail with the output [failed]. *)
Definition manager_failing (units : list string) (bad : list (list string)) : manager :=
  Manager (list_to_set units)
          (λ args, if bool_decide (args ∈ bad) then Some "failed"%string else None) [].

(** What [TestSync] does to the source directory between two passes: it
    writes the one unit file, or removes it. *)
Definition put_source {S : Type} (src unit : string) (data : list Byte.byte)
    (p : pass S) : pass S :=
  with_fs (Filesys (<[(src, unit) := data]> (fs_files (p_fs p)))
                   (<[src := [unit]]> (fs_dirs (p_fs p)))
                   (fs_fault (p_fs p)) (fs_partial (p_fs p))) p.

Definition drop_source {S : Type} (src unit : string) (p : pass S) : pass S :=
  with_fs (Filesys (delete (src, unit) (fs_files (p_fs p)))
                   (<[src := []]> (fs_dirs (p_fs p)))
                   (fs_fault (p_fs p)) (fs_partial (p_fs p))) p.

(** Where a pass stands with the one unit of the test: the listing of the
    source directory, the two files, and the map. *)
Definition stage {S : Type} (src dest unit : string) (p : pass S)
    (names : list string) (s d : option (list Byte.byte))
    (st : gmap string string) : Prop :=
  healthy (p_fs p) ∧ fs_dirs (p_fs p) !! src = Some names ∧
  fs_files (p_fs p) !! (src, unit) = s ∧ fs_files (p_fs p) !! (dest, unit) = d ∧
  p_state p = st.

(** The absolute path, in cleaned form, of the directory reached from the
    root through [names]. *)
Definition dir_of (names : list string) : string :=
  foldr (λ n acc, "/" +:+ n +:+ acc) ""%string names.

(** Two directories given by such paths, neither of which is the other or
    lies inside it: no file of the one is a file or a directory of the
    other, and [path.Join] of such a path and an entry name is the path, a
    slash and the name. *)
Definition apart (src dest : string) : Prop :=
  ∃ ns nd, Forall entry_name ns ∧ Forall entry_name nd ∧
           src = dir_of ns ∧ dest = dir_of nd ∧
           ¬ ns `prefix_of` nd ∧ ¬ nd `prefix_of` ns.

(** ** Proof automation *)

(* settle the [err != nil] tests left by a case analysis *)
Ltac nil_cases :=
  repeat match goal with
  | H : not_nil ?o = true |- _ => destruct o; [clear H | discriminate H]
  | H : not_nil ?o = false |- _ => destruct o; [discriminate H | clear H]
  end.

(* reduce the projections of a pass, and nothing else *)
Ltac pass_simpl :=
  cbn [p_fs p_sysd p_log p_state p_ok logf fail with_fs with_sysd with_state
       with_ok not_nil fst snd].
Tactic Notation "pass_simpl" "in" hyp(H) :=
  cbn [p_fs p_sysd p_log p_state p_ok logf fail with_fs with_sysd with_state
       with_ok not_nil fst snd] in H.

(** * Properties *)

(** ** The fingerprint *)

Example fingerprint_empty :
  fingerprint [] =
  "e3b0c44298fc1c149afbf4c8996fb92427ae41e4649b934ca495991b7852b855"%string.
Proof. vm_compute. reflexivity. Qed.

Example fingerprint_abc :
  fingerprint (bytes_of_string "abc") =
  "ba7816bf8f01cfea414140de5dae2223b00361a396177a9cb410ff61f20015ad"%string.
Proof. vm_compute. reflexivity. Qed.

Example fingerprint_two_blocks :
  fingerprint (bytes_of_string
    "abcdbcdecdefdefgefghfghighijhijkijkljklmklmnlmnomnopnopq") =
  "248d6a61d20638b8e5c026930c3e6039a33ce45964ff2167f6ecedd419db06c1"%string.
Proof. vm_compute. reflexivity. Qed.

Lemma be_bytes_length k x : length (Sha256.be_bytes k x) = k.
Proof. induction k as [|k IH]; simpl; [done | by rewrite IH]. Qed.

Lemma sum_bytes_length d : length (Sha256.sum_bytes d) = 32%nat.
Proof.
  unfold Sha256.sum_bytes. rewrite !length_app, !be_bytes_length. done.
Qed.

Lemma encode_length l : length (Hex.encode l) = (2 * length l)%nat.
Proof. induction l as [|v l IH]; simpl; [done | rewrite IH; lia]. Qed.

Lemma string_of_list_ascii_length l :
  String.length (string_of_list_ascii l) = length l.
Proof. induction l as [|c l IH]; simpl; [done | by rewrite IH]. Qed.

Lemma digit_hex n : Hex.digit n ∈ Hex.hextable.
Proof.
  unfold Hex.digit.
  destruct (nth_in_or_default (Z.to_nat n) Hex.hextable "0"%char) as [Hin | ->].
  - by apply list_elem_of_In.
  - apply list_elem_of_In. simpl. tauto.
Qed.

Lemma encode_hex l : Forall (λ c, c ∈ Hex.hextable) (Hex.encode l).
Proof.
  induction l as [|v l IH]; simpl; [constructor |].
  constructor; [apply digit_hex |].
  constructor; [apply digit_hex | exact IH].
Qed.

Lemma fingerprint_length data : String.length (fingerprint data) = 64%nat.
Proof.
  unfold fingerprint, Hex.EncodeToString, Sha256.sum256.
  rewrite string_of_list_ascii_length, encode_length, sum_bytes_length. done.
Qed.

Lemma fingerprint_hex data :
  Forall (λ c, c ∈ Hex.hextable) (list_ascii_of_string (fingerprint data)).
Proof.
  unfold fingerprint, Hex.EncodeToString.
  rewrite list_ascii_of_string_of_list_ascii. apply encode_hex.
Qed.

Lemma fingerprint_not_empty data : fingerprint data ≠ ""%string.
Proof.
  intros H. pose proof (fingerprint_length data) as Hl.
  rewrite H in Hl. discriminate.
Qed.

(** ** [getChecksum], [copyFile] and the file operations *)

Lemma same_env_refl fs : same_env fs fs.
Proof. done. Qed.

Lemma same_env_trans fs1 fs2 fs3 :
  same_env fs1 fs2 → same_env fs2 fs3 → same_env fs1 fs3.
Proof. intros [? ?] [? ?]. split; congruence. Qed.

Lemma getChecksum_ok fs name c :
  getChecksum fs name = (c, None) →
  ∃ data, fs_files fs !! name = Some data ∧ c = fingerprint data ∧
          fs_fault fs OpOpen name = None ∧ fs_fault fs OpRead name = None.
Proof.
  unfold getChecksum, os_Open, read_all. intros H.
  destruct (fs_fault fs OpOpen name); [done |].
  destruct (fs_files fs !! name) as [data|]; [| done].
  destruct (fs_fault fs OpRead name); [done |].
  simpl in H. exists data. by simplify_eq.
Qed.

Lemma getChecksum_ok_intro fs name data :
  fs_files fs !! name = Some data →
  fs_fault fs OpOpen name = None → fs_fault fs OpRead name = None →
  getChecksum fs name = (fingerprint data, None).
Proof.
  intros Hf Ho Hr. unfold getChecksum, os_Open, read_all.
  by rewrite Ho, Hf, Hr.
Qed.

Lemma getChecksum_err fs name c e :
  getChecksum fs name = (c, Some e) → c = ""%string.
Proof.
  unfold getChecksum. intros H.
  destruct (os_Open fs name); [by simplify_eq |].
  destruct (read_all fs name) as [data [e'|]]; by simplify_eq.
Qed.

Lemma getChecksum_not_exist fs name c :
  getChecksum fs name = (c, Some ENOENT) →
  fs_files fs !! name = None ∧ fs_fault fs OpOpen name = None.
Proof.
  unfold getChecksum, os_Open, read_all. intros H.
  destruct (fs_fault fs OpOpen name); [by simplify_eq |].
  destruct (fs_files fs !! name) as [data|]; [| done].
  destruct (fs_fault fs OpRead name); by simplify_eq.
Qed.

Lemma getChecksum_absent fs name :
  fs_files fs !! name = None → fs_fault fs OpOpen name = None →
  getChecksum fs name = (""%string, Some ENOENT).
Proof.
  intros Hf Ho. unfold getChecksum, os_Open. by rewrite Ho, Hf.
Qed.

Lemma copyFile_env src dest fs fs' err :
  copyFile src dest fs = (fs', err) → same_env fs fs'.
Proof.
  unfold copyFile, os_Create, io_Copy. intros H.
  repeat (case_match; simplify_eq/=); done.
Qed.

Lemma copyFile_other src dest fs fs' err q :
  copyFile src dest fs = (fs', err) → q ≠ dest →
  fs_files fs' !! q = fs_files fs !! q.
Proof.
  unfold copyFile, os_Create, io_Copy. intros H Hq.
  repeat (case_match; simplify_eq/=);
    rewrite ?lookup_insert_ne by done; done.
Qed.

Lemma copyFile_ok src dest fs fs' :
  copyFile src dest fs = (fs', None) → src ≠ dest →
  ∃ data, fs_files fs !! src = Some data ∧ fs_files fs' !! dest = Some data.
Proof.
  unfold copyFile, os_Open, os_Create, io_Copy. intros H Hne.
  repeat (case_match; simplify_eq/=);
    (eexists; split; [done |]);
    rewrite lookup_insert_eq, lookup_insert_ne by done;
    by match goal with Hs : fs_files fs !! src = Some _ |- _ => rewrite Hs end.
Qed.

Lemma os_Remove_env fs name fs' err :
  os_Remove fs name = (fs', err) → same_env fs fs'.
Proof.
  unfold os_Remove. intros H. repeat (case_match; simplify_eq/=); done.
Qed.

Lemma os_Remove_other fs name fs' err q :
  os_Remove fs name = (fs', err) → q ≠ name →
  fs_files fs' !! q = fs_files fs !! q.
Proof.
  unfold os_Remove. intros H Hq.
  repeat (case_match; simplify_eq/=); rewrite ?lookup_delete_ne by done; done.
Qed.

Lemma os_Remove_ok fs name fs' :
  os_Remove fs name = (fs', None) →
  is_Some (fs_files fs !! name) ∧ fs_files fs' !! name = None.
Proof.
  unfold os_Remove. intros H. repeat (case_match; simplify_eq/=).
  split; [eauto | apply lookup_delete_eq].
Qed.

Lemma os_Remove_err fs name fs' e :
  os_Remove fs name = (fs', Some e) → fs' = fs.
Proof.
  unfold os_Remove. intros H. repeat (case_match; simplify_eq/=); done.
Qed.

Lemma os_Stat_env fs fs' q :
  same_env fs fs' → fs_files fs' !! q = fs_files fs !! q →
  os_Stat fs' q = os_Stat fs q.
Proof. intros [_ Hf] Hq. unfold os_Stat. by rewrite Hf, Hq. Qed.

Lemma getChecksum_env fs fs' q :
  same_env fs fs' → fs_files fs' !! q = fs_files fs !! q →
  getChecksum fs' q = getChecksum fs q.
Proof.
  intros [_ Hf] Hq. unfold getChecksum, os_Open, read_all. by rewrite Hf, Hq.
Qed.

(** ** [path.Base] on directory entries *)

Lemma until_slash_plain l : slash ∉ l → until_slash l = l.
Proof.
  induction l as [|c l IH]; simpl; [done |]. intros Hn.
  unfold is_slash. destruct (Ascii.eqb_spec c slash) as [-> | Hc].
  - exfalso. apply Hn. left.
  - f_equal. apply IH. intros Hin. apply Hn. by right.
Qed.

Lemma drop_slashes_plain l : slash ∉ l → drop_slashes l = l.
Proof.
  destruct l as [|c l]; simpl; [done |]. intros Hn.
  unfold is_slash. destruct (Ascii.eqb_spec c slash) as [-> | Hc]; [| done].
  exfalso. apply Hn. left.
Qed.

Lemma path_Base_plain entry : plain entry → path_Base entry = entry.
Proof.
  intros [Hne Hs]. unfold path_Base.
  destruct entry as [|a s] eqn:E; [done |]. rewrite <- E in *.
  assert (Hr : slash ∉ rev (list_ascii_of_string entry)).
  { intros Hin. apply Hs. apply list_elem_of_In, in_rev. by apply list_elem_of_In. }
  rewrite drop_slashes_plain, until_slash_plain by done.
  rewrite rev_involutive.
  destruct (list_ascii_of_string entry) eqn:El.
  - rewrite E in El. discriminate.
  - rewrite <- El. apply string_of_list_ascii_of_string.
Qed.

(** ** The loop bodies of [sync], one step at a time *)

Section Steps.
Context {S : Type} `{!systemd S}.
Implicit Types (p : pass S) (src dest unit entry : string).

Lemma sync_apply_fs unit c cur p : p_fs (sync_apply unit c cur p) = p_fs p.
Proof. unfold sync_apply. repeat (case_match; simplify_eq/=); done. Qed.

Lemma sync_apply_ok unit c cur p :
  p_ok (sync_apply unit c cur p) = true → p_ok p = true.
Proof. unfold sync_apply. repeat (case_match; simplify_eq/=); done. Qed.

Lemma sync_apply_state_other unit c cur p u :
  u ≠ unit → p_state (sync_apply unit c cur p) !! u = p_state p !! u.
Proof.
  intros Hu. unfold sync_apply.
  repeat (case_match; simplify_eq/=); rewrite ?lookup_insert_ne by done; done.
Qed.

Lemma sync_apply_state_unit unit c cur p :
  p_state (sync_apply unit c cur p) !! unit = Some c ∨
  p_state (sync_apply unit c cur p) = p_state p.
Proof.
  unfold sync_apply.
  repeat (case_match; simplify_eq/=); rewrite ?lookup_insert_eq; auto.
Qed.

Lemma sync_apply_converged unit c cur p :
  c ≠ ""%string → p_ok (sync_apply unit c cur p) = true →
  p_state (sync_apply unit c cur p) !! unit = Some c.
Proof.
  intros Hc. unfold sync_apply, state_get.
  repeat (case_match; simplify_eq/=); rewrite ?lookup_insert_eq; try done.
  intros _.
  assert (Heq : c = default ""%string (p_state p !! unit)).
  { destruct (decide (c = default ""%string (p_state p !! unit)));
      [done | contradiction]. }
  destruct (p_state p !! unit) as [v|]; simpl in *; congruence.
Qed.

Lemma sync_install_ok unit name target c cur p :
  p_ok (sync_install unit name target c cur p) = true → p_ok p = true.
Proof.
  unfold sync_install. repeat (case_match; simplify_eq/=); try done.
  all: intros Hok; by apply sync_apply_ok in Hok.
Qed.

Lemma sync_install_env unit name target c cur p :
  same_env (p_fs p) (p_fs (sync_install unit name target c cur p)).
Proof.
  unfold sync_install. repeat (case_match; simplify_eq/=);
    rewrite ?sync_apply_fs; simpl; eauto using copyFile_env, same_env_refl.
Qed.

Lemma sync_install_other unit name target c cur p q :
  q ≠ target →
  fs_files (p_fs (sync_install unit name target c cur p)) !! q = fs_files (p_fs p) !! q.
Proof.
  intros Hq. unfold sync_install. repeat (case_match; simplify_eq/=);
    rewrite ?sync_apply_fs; simpl; eauto using copyFile_other.
Qed.

Lemma sync_install_same unit name target c cur p :
  c = cur → p_fs (sync_install unit name target c cur p) = p_fs p.
Proof.
  intros ->. unfold sync_install. rewrite decide_False by naive_solver.
  apply sync_apply_fs.
Qed.

Lemma sync_install_state_other unit name target c cur p u :
  u ≠ unit →
  p_state (sync_install unit name target c cur p) !! u = p_state p !! u.
Proof.
  intros Hu. unfold sync_install. repeat (case_match; simplify_eq/=);
    rewrite ?sync_apply_state_other by done; done.
Qed.

Lemma sync_install_state_unit unit name target c cur p :
  p_state (sync_install unit name target c cur p) !! unit = Some c ∨
  p_state (sync_install unit name target c cur p) = p_state p.
Proof.
  unfold sync_install. repeat (case_match; simplify_eq/=); auto.
  - destruct (sync_apply_state_unit unit c cur
      (logf (LogWrote unit) (with_fs f p))); auto.
  - apply sync_apply_state_unit.
Qed.

(** What one successful step of the first loop establishes. *)
Lemma sync_install_converged unit name target c cur p data :
  fs_files (p_fs p) !! name = Some data → c = fingerprint data →
  getChecksum (p_fs p) target = (cur, None) ∨
    getChecksum (p_fs p) target = (cur, Some ENOENT) →
  p_ok (sync_install unit name target c cur p) = true →
  let p' := sync_install unit name target c cur p in
  p_state p' !! unit = Some c ∧
  ∃ data', fs_files (p_fs p') !! target = Some data' ∧ fingerprint data' = c.
Proof.
  intros Hsrc -> Hcur Hok p'.
  assert (Hne : fingerprint data ≠ ""%string) by apply fingerprint_not_empty.
  subst p'. revert Hok. unfold sync_install.
  destruct (decide (fingerprint data ≠ cur)) as [Hd | Hd].
  - destruct (copyFile name target (p_fs p)) as [fs' err] eqn:Hcp.
    destruct err as [e|]; simpl; [done |]. intros Hok.
    split; [by apply sync_apply_converged |].
    rewrite sync_apply_fs. simpl.
    destruct (decide (name = target)) as [-> | Hnt].
    + exfalso. destruct Hcur as [Hcur | Hcur].
      * apply getChecksum_ok in Hcur as (d & Hd1 & -> & _). congruence.
      * apply getChecksum_not_exist in Hcur as [Hd1 _]. congruence.
    + destruct (copyFile_ok _ _ _ _ Hcp Hnt) as (d & Hd1 & Hd2).
      exists d. split; [done | congruence].
  - assert (fingerprint data = cur) as <-
      by (destruct (decide (fingerprint data = cur)); [done | contradiction]).
    intros Hok.
    split; [by apply sync_apply_converged |].
    rewrite sync_apply_fs.
    destruct Hcur as [Hcur | Hcur].
    + apply getChecksum_ok in Hcur as (d & Hd1 & Hd2 & _). eauto.
    + apply getChecksum_err in Hcur. done.
Qed.

Lemma sync_entry_skipped src dest entry p :
  skipped entry = true → sync_entry src dest entry p = p.
Proof. intros H. unfold sync_entry. fold (skipped entry). by rewrite H. Qed.

Lemma sync_entry_ok src dest entry p :
  p_ok (sync_entry src dest entry p) = true → p_ok p = true.
Proof.
  unfold sync_entry. repeat (case_match; simplify_eq/=); try done.
  apply sync_install_ok.
Qed.

Lemma sync_entry_env src dest entry p :
  same_env (p_fs p) (p_fs (sync_entry src dest entry p)).
Proof.
  unfold sync_entry. repeat (case_match; simplify_eq/=);
    auto using same_env_refl, sync_install_env.
Qed.

Lemma sync_entry_other src dest entry p q :
  q ≠ (dest, path_Base entry) →
  fs_files (p_fs (sync_entry src dest entry p)) !! q = fs_files (p_fs p) !! q.
Proof.
  intros Hq. unfold sync_entry. repeat (case_match; simplify_eq/=); try done.
  by apply sync_install_other.
Qed.

(** The first loop never writes into the source directory, even when the
    two directories are the same one. *)
Lemma sync_entry_src_files src dest entry p u :
  fs_files (p_fs (sync_entry src dest entry p)) !! (src, u) =
  fs_files (p_fs p) !! (src, u).
Proof.
  destruct (decide ((src, u) = (dest, path_Base entry))) as [Heq | Hne];
    [| by apply sync_entry_other].
  simplify_eq. unfold sync_entry, path_Join.
  repeat (case_match; simplify_eq/=); try done.
  by rewrite sync_install_same.
Qed.

Lemma sync_entry_state_other src dest entry p u :
  u ≠ path_Base entry →
  p_state (sync_entry src dest entry p) !! u = p_state p !! u.
Proof.
  intros Hu. unfold sync_entry. repeat (case_match; simplify_eq/=); try done.
  by apply sync_install_state_other.
Qed.

Lemma sync_entry_state_unit src dest entry p :
  (skipped entry = false ∧
   ∃ c, p_state (sync_entry src dest entry p) !! path_Base entry = Some c ∧
        c ≠ ""%string) ∨
  p_state (sync_entry src dest entry p) = p_state p.
Proof.
  unfold sync_entry. fold (skipped entry).
  repeat (case_match; simplify_eq/=); auto.
  match goal with |- context [sync_install ?u ?n ?t ?c ?cur p] =>
    destruct (sync_install_state_unit u n t c cur p) as [Hs | Hs] end; auto.
  left. split; [done |]. eexists. split; [exact Hs |].
  match goal with Hn : not_nil ?o = false |- _ => destruct o; [done |] end.
  match goal with Hg : getChecksum _ (path_Join src _) = (_, None) |- _ =>
    apply getChecksum_ok in Hg as (d & _ & -> & _) end.
  apply fingerprint_not_empty.
Qed.

Lemma sync_entry_keep src dest entry p u :
  is_Some (p_state p !! u) → is_Some (p_state (sync_entry src dest entry p) !! u).
Proof.
  intros Hu. destruct (sync_entry_state_unit src dest entry p)
    as [(_ & c & Hc & _) | ->]; [| done].
  destruct (decide (u = path_Base entry)) as [-> | Hne]; [by rewrite Hc |].
  by rewrite sync_entry_state_other.
Qed.

Lemma sync_entry_converged src dest entry p :
  skipped entry = false → p_ok (sync_entry src dest entry p) = true →
  let unit := path_Base entry in
  let p' := sync_entry src dest entry p in
  ∃ data data',
    fs_files (p_fs p) !! (src, unit) = Some data ∧
    fs_files (p_fs p') !! (dest, unit) = Some data' ∧
    fingerprint data' = fingerprint data ∧
    p_state p' !! unit = Some (fingerprint data) ∧
    fs_fault (p_fs p) OpOpen (src, unit) = None ∧
    fs_fault (p_fs p) OpRead (src, unit) = None ∧
    fs_fault (p_fs p) OpOpen (dest, unit) = None.
Proof.
  intros Hsk. simpl. unfold sync_entry. fold (skipped entry). rewrite Hsk.
  unfold path_Join.
  destruct (getChecksum (p_fs p) (src, path_Base entry)) as [c err] eqn:Hc.
  destruct err as [e|]; simpl; [done |].
  destruct (getChecksum (p_fs p) (dest, path_Base entry)) as [cur err] eqn:Hcur.
  apply getChecksum_ok in Hc as (data & Hdata & -> & Ho & Hr).
  assert (Hgood : not_nil err && negb (IsNotExist err) = false →
    (getChecksum (p_fs p) (dest, path_Base entry) = (cur, None) ∨
     getChecksum (p_fs p) (dest, path_Base entry) = (cur, Some ENOENT)) ∧
    fs_fault (p_fs p) OpOpen (dest, path_Base entry) = None).
  { intros Hg. destruct err as [[]|]; simpl in Hg; try done.
    - split; [by right |]. by apply getChecksum_not_exist in Hcur as [_ ?].
    - split; [by left |]. by apply getChecksum_ok in Hcur as (? & ? & ? & ? & ?). }
  destruct (not_nil err && negb (IsNotExist err)) eqn:Hg; simpl; [done |].
  destruct (Hgood eq_refl) as [Hcur' Hod]. intros Hok.
  destruct (sync_install_converged _ _ _ _ _ _ _ Hdata eq_refl Hcur' Hok)
    as (Hst & data' & Hd' & Hfp).
  exists data, data'. done.
Qed.

(** *** The cleanup loop *)

Lemma sync_cleanup_present src dest unit p :
  os_Stat (p_fs p) (src, unit) = None → sync_cleanup src dest unit p = p.
Proof. intros H. unfold sync_cleanup, path_Join. by rewrite H. Qed.

Lemma sync_cleanup_ok src dest unit p :
  p_ok (sync_cleanup src dest unit p) = true → p_ok p = true.
Proof. unfold sync_cleanup. repeat (case_match; simplify_eq/=); done. Qed.

Lemma sync_cleanup_env src dest unit p :
  same_env (p_fs p) (p_fs (sync_cleanup src dest unit p)).
Proof.
  unfold sync_cleanup. repeat (case_match; simplify_eq/=);
    eauto using same_env_refl, os_Remove_env.
Qed.

Lemma sync_cleanup_other src dest unit p q :
  q ≠ (dest, unit) →
  fs_files (p_fs (sync_cleanup src dest unit p)) !! q = fs_files (p_fs p) !! q.
Proof.
  intros Hq. unfold sync_cleanup. repeat (case_match; simplify_eq/=);
    eauto using os_Remove_other.
Qed.

Lemma sync_cleanup_state_other src dest unit p u :
  u ≠ unit → p_state (sync_cleanup src dest unit p) !! u = p_state p !! u.
Proof.
  intros Hu. unfold sync_cleanup. repeat (case_match; simplify_eq/=);
    rewrite ?lookup_delete_ne by done; done.
Qed.

Lemma sync_cleanup_state_unit src dest unit p :
  p_state (sync_cleanup src dest unit p) = p_state p ∨
  (p_state (sync_cleanup src dest unit p) = delete unit (p_state p) ∧
   os_Stat (p_fs p) (src, unit) ≠ None).
Proof.
  unfold sync_cleanup, path_Join.
  repeat (case_match; simplify_eq/=); auto.
  all: right; split; [done |]; by destruct (os_Stat (p_fs p) (src, unit)).
Qed.

Lemma sync_cleanup_subseteq src dest unit p u v :
  p_state (sync_cleanup src dest unit p) !! u = Some v → p_state p !! u = Some v.
Proof.
  destruct (sync_cleanup_state_unit src dest unit p) as [-> | [-> _]]; [done |].
  intros H. apply lookup_delete_Some in H. tauto.
Qed.

(** A key whose source file is gone does not survive a step that leaves
    [ok] set. *)
Lemma sync_cleanup_converged src dest unit p :
  os_Stat (p_fs p) (src, unit) ≠ None →
  p_ok (sync_cleanup src dest unit p) = true →
  p_state (sync_cleanup src dest unit p) !! unit = None.
Proof.
  unfold sync_cleanup, path_Join. intros Hst.
  destruct (os_Stat (p_fs p) (src, unit)); [| done]. simpl.
  repeat (case_match; simplify_eq/=); try done.
  all: intros _; apply lookup_delete_eq.
Qed.

(** The only file a cleanup step may remove is the destination record of
    a unit whose source file is gone. *)
Lemma sync_cleanup_files src dest unit p q :
  fs_files (p_fs (sync_cleanup src dest unit p)) !! q = fs_files (p_fs p) !! q ∨
  (q = (dest, unit) ∧ os_Stat (p_fs p) (src, unit) ≠ None ∧
   is_Some (fs_files (p_fs p) !! q)).
Proof.
  destruct (decide (q = (dest, unit))) as [-> | Hq];
    [| left; by apply sync_cleanup_other].
  unfold sync_cleanup, path_Join.
  destruct (os_Stat (p_fs p) (src, unit)) eqn:Hst; simpl; [| by left].
  repeat (case_match; simplify_eq/=); nil_cases; auto.
  all: match goal with
       | Hr : os_Remove _ _ = (_, Some _) |- _ =>
           left; apply os_Remove_err in Hr as ->; done
       | Hr : os_Remove _ _ = (_, None) |- _ =>
           right; apply os_Remove_ok in Hr as [? _]; done
       end.
Qed.

End Steps.

(** ** The two loops *)

Section Loops.
Context {S : Type} `{!systemd S}.
Implicit Types (p : pass S) (src dest unit entry : string).

Lemma sync_entries_snoc src dest files entry p :
  sync_entries src dest (files ++ [entry]) p =
  sync_entry src dest entry (sync_entries src dest files p).
Proof. unfold sync_entries. by rewrite fold_left_app. Qed.

Lemma sync_cleanups_cons src dest unit units p :
  sync_cleanups src dest (unit :: units) p =
  sync_cleanups src dest units (sync_cleanup src dest unit p).
Proof. done. Qed.

Lemma sync_entries_ok src dest files p :
  p_ok (sync_entries src dest files p) = true → p_ok p = true.
Proof.
  induction files as [|e files IH] using rev_ind; [done |].
  rewrite sync_entries_snoc. intros H. by apply sync_entry_ok, IH in H.
Qed.

Lemma sync_entries_env src dest files p :
  same_env (p_fs p) (p_fs (sync_entries src dest files p)).
Proof.
  induction files as [|e files IH] using rev_ind; [done |].
  rewrite sync_entries_snoc.
  eapply same_env_trans; [exact IH | apply sync_entry_env].
Qed.

Lemma sync_entries_src_files src dest files p u :
  fs_files (p_fs (sync_entries src dest files p)) !! (src, u) =
  fs_files (p_fs p) !! (src, u).
Proof.
  induction files as [|e files IH] using rev_ind; [done |].
  by rewrite sync_entries_snoc, sync_entry_src_files.
Qed.

Lemma sync_entries_keep src dest files p u :
  is_Some (p_state p !! u) →
  is_Some (p_state (sync_entries src dest files p) !! u).
Proof.
  induction files as [|e files IH] using rev_ind; [done |].
  rewrite sync_entries_snoc. intros H. by apply sync_entry_keep, IH.
Qed.

Lemma sync_entries_keys src dest files p u :
  is_Some (p_state (sync_entries src dest files p) !! u) →
  is_Some (p_state p !! u) ∨
  ∃ e, e ∈ files ∧ skipped e = false ∧ u = path_Base e.
Proof.
  induction files as [|e files IH] using rev_ind; [by left |].
  rewrite sync_entries_snoc. intros H.
  assert (Hold : is_Some (p_state (sync_entries src dest files p) !! u) →
    is_Some (p_state p !! u) ∨
    ∃ e0, e0 ∈ files ++ [e] ∧ skipped e0 = false ∧ u = path_Base e0).
  { intros H'. destruct (IH H') as [? | (e0 & ? & ? & ?)]; [by left |].
    right. exists e0. split; [apply elem_of_app; by left | done]. }
  destruct (sync_entry_state_unit src dest e (sync_entries src dest files p))
    as [(Hsk & _) | Heq].
  - destruct (decide (u = path_Base e)) as [-> | Hne].
    + right. exists e. set_solver.
    + rewrite sync_entry_state_other in H by done. auto.
  - rewrite Heq in H. auto.
Qed.

Lemma sync_entries_no_empty src dest files p :
  no_empty (p_state p) → no_empty (p_state (sync_entries src dest files p)).
Proof.
  induction files as [|e files IH] using rev_ind; [done |].
  rewrite sync_entries_snoc. intros H0 u Hu. specialize (IH H0).
  destruct (sync_entry_state_unit src dest e (sync_entries src dest files p))
    as [(_ & c & Hc & Hne) | Heq].
  - destruct (decide (u = path_Base e)) as [-> | Hd].
    + congruence.
    + rewrite sync_entry_state_other in Hu by done. by apply IH in Hu.
  - rewrite Heq in Hu. by apply IH in Hu.
Qed.

(** What the first loop has established for every entry it did not skip,
    when it leaves [ok] set. *)
Lemma sync_entries_converged src dest files p e :
  p_ok (sync_entries src dest files p) = true →
  e ∈ files → skipped e = false →
  let unit := path_Base e in
  let p' := sync_entries src dest files p in
  ∃ data data',
    fs_files (p_fs p) !! (src, unit) = Some data ∧
    fs_files (p_fs p') !! (dest, unit) = Some data' ∧
    fingerprint data' = fingerprint data ∧
    p_state p' !! unit = Some (fingerprint data) ∧
    fs_fault (p_fs p) OpOpen (src, unit) = None ∧
    fs_fault (p_fs p) OpRead (src, unit) = None ∧
    fs_fault (p_fs p) OpOpen (dest, unit) = None.
Proof.
  simpl. induction files as [|e' files IH] using rev_ind; [set_solver |].
  rewrite sync_entries_snoc. intros Hok Hin Hsk.
  set (pl := sync_entries src dest files p) in *.
  destruct (sync_entries_env src dest files p) as [_ Hfault]. fold pl in Hfault.
  destruct (decide (skipped e' = false ∧ path_Base e' = path_Base e))
    as [[Hsk' Hu] | Hother].
  - destruct (sync_entry_converged src dest e' pl Hsk' Hok)
      as (data & data' & H1 & H2 & H3 & H4 & H5 & H6 & H7).
    rewrite Hu in H1, H2, H4, H5, H6, H7. unfold pl in H1. rewrite sync_entries_src_files in H1.
    rewrite Hfault in H5, H6, H7. exists data, data'. done.
  - assert (Hin' : e ∈ files).
    { apply elem_of_app in Hin as [? | Hin]; [done |].
      apply list_elem_of_singleton in Hin as ->. exfalso. by apply Hother. }
    destruct (IH (sync_entry_ok _ _ _ _ Hok) Hin' Hsk)
      as (data & data' & H1 & H2 & H3 & H4 & H5).
    exists data, data'. split; [done |].
    destruct (skipped e') eqn:Hsk'.
    { by rewrite sync_entry_skipped. }
    assert (Hne : path_Base e ≠ path_Base e').
    { intros Heq. apply Hother. by split. }
    rewrite sync_entry_other by congruence.
    rewrite sync_entry_state_other by done. done.
Qed.

(** *** The cleanup loop *)

Lemma sync_cleanups_ok src dest units p :
  p_ok (sync_cleanups src dest units p) = true → p_ok p = true.
Proof.
  revert p. induction units as [|u units IH]; intros p; [done |].
  rewrite sync_cleanups_cons. intros H. by apply IH, sync_cleanup_ok in H.
Qed.

Lemma sync_cleanups_env src dest units p :
  same_env (p_fs p) (p_fs (sync_cleanups src dest units p)).
Proof.
  revert p. induction units as [|u units IH]; intros p; [done |].
  rewrite sync_cleanups_cons.
  eapply same_env_trans; [apply sync_cleanup_env | apply IH].
Qed.

Lemma sync_cleanups_subseteq src dest units p u v :
  p_state (sync_cleanups src dest units p) !! u = Some v → p_state p !! u = Some v.
Proof.
  revert p. induction units as [|k units IH]; intros p; [done |].
  rewrite sync_cleanups_cons. intros H.
  by apply IH, sync_cleanup_subseteq in H.
Qed.

(** Whether the source file of a unit is there does not change during the
    cleanup loop. *)
Lemma sync_cleanup_stat src dest unit p u :
  os_Stat (p_fs (sync_cleanup src dest unit p)) (src, u) = None ↔
  os_Stat (p_fs p) (src, u) = None.
Proof.
  destruct (sync_cleanup_env src dest unit p) as [_ Hf].
  destruct (sync_cleanup_files src dest unit p (src, u))
    as [Hq | (Hq & Hst & [d Hd])].
  - unfold os_Stat. by rewrite Hf, Hq.
  - simplify_eq. split; [| done]. intros H'. exfalso.
    unfold os_Stat in Hst, H'. rewrite Hf in H'.
    destruct (fs_fault (p_fs p) OpStat (dest, unit)); [done |].
    by rewrite Hd in Hst.
Qed.

Lemma sync_cleanups_stat src dest units p u :
  os_Stat (p_fs (sync_cleanups src dest units p)) (src, u) = None ↔
  os_Stat (p_fs p) (src, u) = None.
Proof.
  revert p. induction units as [|k units IH]; intros p; [done |].
  rewrite sync_cleanups_cons, IH. apply sync_cleanup_stat.
Qed.

Lemma sync_cleanups_present src dest units p :
  (∀ u, u ∈ units → os_Stat (p_fs p) (src, u) = None) →
  sync_cleanups src dest units p = p.
Proof.
  induction units as [|k units IH]; intros H; [done |].
  rewrite sync_cleanups_cons, sync_cleanup_present by set_solver.
  apply IH. set_solver.
Qed.

(** A unit whose source file is there keeps its state entry and its
    destination record. *)
Lemma sync_cleanups_kept src dest units p u :
  os_Stat (p_fs p) (src, u) = None →
  let p' := sync_cleanups src dest units p in
  p_state p' !! u = p_state p !! u ∧
  fs_files (p_fs p') !! (dest, u) = fs_files (p_fs p) !! (dest, u) ∧
  fs_files (p_fs p') !! (src, u) = fs_files (p_fs p) !! (src, u).
Proof.
  simpl. revert p. induction units as [|k units IH]; intros p Hst; [done |].
  rewrite sync_cleanups_cons.
  destruct (IH (sync_cleanup src dest k p)) as (-> & -> & ->).
  { by apply sync_cleanup_stat. }
  destruct (decide (k = u)) as [-> | Hk].
  { by rewrite sync_cleanup_present. }
  rewrite sync_cleanup_state_other by done.
  rewrite !sync_cleanup_other by congruence. done.
Qed.

(** A key whose source file is gone does not survive a cleanup loop that
    visits it and leaves [ok] set. *)
Lemma sync_cleanups_converged src dest units p u :
  p_ok (sync_cleanups src dest units p) = true →
  u ∈ units → os_Stat (p_fs p) (src, u) ≠ None →
  p_state (sync_cleanups src dest units p) !! u = None.
Proof.
  revert p. induction units as [|k units IH]; intros p Hok Hin Hst;
    [set_solver |].
  rewrite sync_cleanups_cons in *.
  destruct (decide (u ∈ units)) as [Hu | Hu].
  - apply IH; [done | done |]. by rewrite sync_cleanup_stat.
  - assert (k = u) as ->.
    { apply elem_of_cons in Hin as [Heq | ?]; [done | contradiction]. }
    destruct (p_state (sync_cleanups src dest units (sync_cleanup src dest u p)) !! u)
      as [v|] eqn:E; [| done].
    apply sync_cleanups_subseteq in E.
    rewrite sync_cleanup_converged in E; [done | done |].
    by apply sync_cleanups_ok in Hok.
Qed.

Lemma sync_cleanups_no_empty src dest units p :
  no_empty (p_state p) → no_empty (p_state (sync_cleanups src dest units p)).
Proof.
  intros H u Hu. apply sync_cleanups_subseteq in Hu. by apply H in Hu.
Qed.

End Loops.

(** ** The whole pass *)

Section WholePass.
Context {S : Type} `{!systemd S}.
Implicit Types (p : pass S) (src dest unit entry : string).

Lemma sync_listed range src dest p files :
  fs_dirs (p_fs p) !! src = Some files →
  sync range src dest p =
  let p1 := sync_entries src dest files (with_ok true p) in
  sync_cleanups src dest (range (p_state p1)) p1.
Proof. intros H. unfold sync, ReadDir. by rewrite H. Qed.

Lemma sync_not_listed range src dest p :
  fs_dirs (p_fs p) !! src = None →
  sync range src dest p = fail (LogListErr (Some ENOENT)) p.
Proof. intros H. unfold sync, ReadDir. by rewrite H. Qed.

Lemma sync_ok_listed range src dest p :
  p_ok (sync range src dest p) = true → is_Some (fs_dirs (p_fs p) !! src).
Proof.
  destruct (fs_dirs (p_fs p) !! src) eqn:E; [eauto |].
  by rewrite sync_not_listed.
Qed.

Lemma sync_env range src dest p :
  same_env (p_fs p) (p_fs (sync range src dest p)).
Proof.
  destruct (fs_dirs (p_fs p) !! src) as [files|] eqn:E.
  - rewrite (sync_listed _ _ _ _ files) by done. simpl.
    eapply same_env_trans; [| apply sync_cleanups_env].
    apply (sync_entries_env src dest files (with_ok true p)).
  - by rewrite sync_not_listed.
Qed.

Lemma sync_no_empty range src dest p :
  no_empty (p_state p) → no_empty (p_state (sync range src dest p)).
Proof.
  intros H. destruct (fs_dirs (p_fs p) !! src) as [files|] eqn:E.
  - rewrite (sync_listed _ _ _ _ files) by done. simpl.
    apply sync_cleanups_no_empty.
    by apply (sync_entries_no_empty src dest files (with_ok true p)).
  - by rewrite sync_not_listed.
Qed.

Lemma elem_of_desired files u :
  u ∈ desired files ↔ u ∈ files ∧ skipped u = false.
Proof.
  unfold desired. rewrite elem_of_list_to_set, list_elem_of_In, filter_In.
  rewrite <- list_elem_of_In. destruct (skipped u); simpl; split; intros [? ?]; done.
Qed.

(** Where no [stat] fails for a reason other than a missing file, [stat]
    tells whether the file is there. *)
Lemma os_Stat_present fs q :
  fs_fault fs OpStat q = None →
  os_Stat fs q = None ↔ is_Some (fs_files fs !! q).
Proof.
  intros H. unfold os_Stat. rewrite H.
  destruct (fs_files fs !! q); split; intros; try done; by destruct H0.
Qed.

(** What a pass that returns [true] has established. *)
Lemma sync_success range src dest p files :
  range_order range →
  fs_dirs (p_fs p) !! src = Some files →
  Forall plain files →
  (∀ u, fs_fault (p_fs p) OpStat (src, u) = None) →
  p_ok (sync range src dest p) = true →
  let p' := sync range src dest p in
  (∀ u, fs_files (p_fs p') !! (src, u) = fs_files (p_fs p) !! (src, u)) ∧
  (∀ u, u ∈ desired files →
     ∃ data data',
       fs_files (p_fs p') !! (src, u) = Some data ∧
       fs_files (p_fs p') !! (dest, u) = Some data' ∧
       fingerprint data' = fingerprint data ∧
       p_state p' !! u = Some (fingerprint data) ∧
       fs_fault (p_fs p) OpOpen (src, u) = None ∧
       fs_fault (p_fs p) OpRead (src, u) = None ∧
       fs_fault (p_fs p) OpOpen (dest, u) = None) ∧
  (∀ u, is_Some (p_state p' !! u) → is_Some (fs_files (p_fs p') !! (src, u))) ∧
  (∀ u, is_Some (p_state p' !! u) → u ∈ desired files ∨ is_Some (p_state p !! u)).
Proof.
  intros Hrange Hdir Hplain Hstat. simpl.
  rewrite (sync_listed _ _ _ _ files) by done. simpl.
  set (p1 := sync_entries src dest files (with_ok true p)).
  intros Hok.
  assert (Hok1 : p_ok p1 = true) by (by apply sync_cleanups_ok in Hok).
  destruct (sync_entries_env src dest files (with_ok true p)) as [_ Hf1].
  fold p1 in Hf1. simpl in Hf1.
  assert (Hsrc1 : ∀ u, fs_files (p_fs p1) !! (src, u) = fs_files (p_fs p) !! (src, u)).
  { intros u. apply (sync_entries_src_files src dest files (with_ok true p)). }
  assert (Hstat1 : ∀ u, os_Stat (p_fs p1) (src, u) = None ↔
                        is_Some (fs_files (p_fs p) !! (src, u))).
  { intros u. rewrite os_Stat_present by (by rewrite Hf1). by rewrite Hsrc1. }
  assert (Hsrc : ∀ u,
    fs_files (p_fs (sync_cleanups src dest (range (p_state p1)) p1)) !! (src, u) =
    fs_files (p_fs p) !! (src, u)).
  { intros u. rewrite <- Hsrc1.
    destruct (fs_files (p_fs p1) !! (src, u)) as [d|] eqn:E.
    - rewrite <- E. apply sync_cleanups_kept. apply Hstat1.
      rewrite <- Hsrc1, E. eauto.
    - destruct (fs_files (p_fs (sync_cleanups src dest _ p1)) !! (src, u))
        as [d|] eqn:E'; [| done].
      exfalso. assert (os_Stat (p_fs p1) (src, u) = None) as Hs.
      { apply sync_cleanups_stat with (dest := dest) (units := range (p_state p1)).
        apply os_Stat_present; [| by rewrite E'].
        destruct (sync_cleanups_env src dest (range (p_state p1)) p1) as [_ ->].
        by rewrite Hf1. }
      apply Hstat1 in Hs. rewrite <- Hsrc1, E in Hs. by destruct Hs. }
  split; [exact Hsrc |]. split; [| split].
  - intros u [Hin Hsk]%elem_of_desired.
    destruct (sync_entries_converged src dest files (with_ok true p) u Hok1 Hin Hsk)
      as (data & data' & H1 & H2 & H3 & H4 & H5).
    fold p1 in H2, H4. simpl in H1, H5.
    rewrite path_Base_plain in H1, H2, H4, H5
      by (by eapply Forall_forall in Hplain).
    assert (Hs : os_Stat (p_fs p1) (src, u) = None) by (apply Hstat1; eauto).
    destruct (sync_cleanups_kept src dest (range (p_state p1)) p1 u Hs)
      as (K1 & K2 & K3).
    exists data, data'. rewrite Hsrc, K1, K2. done.
  - intros u [v Hv]. rewrite Hsrc.
    apply Hstat1.
    destruct (os_Stat (p_fs p1) (src, u)) eqn:Hst; [| done]. exfalso.
    assert (Hin : u ∈ range (p_state p1)).
    { rewrite (Hrange (p_state p1)). apply elem_of_elements, elem_of_dom.
      apply sync_cleanups_subseteq in Hv. eauto. }
    rewrite sync_cleanups_converged in Hv; try done. by rewrite Hst.
  - intros u [v Hv]. apply sync_cleanups_subseteq in Hv.
    destruct (sync_entries_keys src dest files (with_ok true p) u)
      as [Hk | (e & Hin & Hsk & ->)]; [by eauto | by right |].
    left. rewrite path_Base_plain by (by eapply Forall_forall in Hplain).
    by apply elem_of_desired.
Qed.

End WholePass.

(** ** Listing failure *)

(** C7: when the listing of the source directory fails, [sync] returns
    false at once: the file system, the control interface and the map are
    what they were, and the only trace is the one log line. *)
Theorem sync_listing_failure {S : Type} `{!systemd S}
    (range : gmap string string → list string) (src dest : string) (p : pass S) :
  not_nil (ReadDir (p_fs p) src).2 = true →
  let p' := sync range src dest p in
  p_ok p' = false ∧ p_fs p' = p_fs p ∧ p_sysd p' = p_sysd p ∧
  p_state p' = p_state p ∧
  p_log p' = p_log p ++ [LogListErr (ReadDir (p_fs p) src).2].
Proof.
  intros H. simpl. unfold sync.
  destruct (ReadDir (p_fs p) src) as [files err]. simpl in H. rewrite H.
  done.
Qed.

(** C7 at a source directory that cannot be listed. *)
Lemma sync_listing_failure_witness :
  let p := main_init (Filesys ∅ ∅ no_faults at_once) (FakeSystemd "") in
  let p' := sync sorted_keys "/units" "/etc" p in
  p_ok p' = false ∧ p_fs p' = p_fs p ∧ p_sysd p' = p_sysd p ∧
  p_state p' = p_state p ∧
  p_log p' = p_log p ++ [LogListErr (ReadDir (p_fs p) "/units").2].
Proof. apply (sync_listing_failure sorted_keys "/units" "/etc"). reflexivity. Defined.

(** ** The concrete collaborators *)

Lemma sorted_keys_order : range_order sorted_keys.
Proof. intros m. reflexivity. Qed.

Lemma plainb_plain entry : plainb entry = true → plain entry.
Proof.
  unfold plainb, plain. intros [H1 H2]%andb_prop. split.
  - intros ->. done.
  - intros Hin. apply negb_true_iff in H2.
    assert (existsb is_slash (list_ascii_of_string entry) = true); [| congruence].
    apply existsb_exists. exists slash. split; [by apply list_elem_of_In |].
    unfold is_slash. apply Ascii.eqb_refl.
Qed.

Lemma dir_files_Some dir l q d :
  dir_files dir l !! q = Some d → ∃ n, q = (dir, n) ∧ n ∈ l.*1.
Proof.
  unfold dir_files. intros H. apply elem_of_list_to_map_2 in H.
  apply list_elem_of_fmap in H as ([n c] & Heq & Hin). simplify_eq/=.
  exists n. split; [done |]. apply list_elem_of_fmap. by exists (n, c).
Qed.

Lemma dir_files_is_Some dir l n :
  n ∈ l.*1 → is_Some (dir_files dir l !! (dir, n)).
Proof.
  intros Hin. apply not_eq_None_Some. intros Hnone.
  apply not_elem_of_list_to_map in Hnone. apply Hnone.
  rewrite <- list_fmap_compose.
  apply list_elem_of_fmap in Hin as ([n' c] & -> & Hin).
  apply list_elem_of_fmap. by exists (n', c).
Qed.

Lemma testfs_healthy units etc : healthy (testfs units etc).
Proof. done. Qed.

Lemma testfs_listing units etc :
  forallb plainb units.*1 = true → listing (testfs units etc) "/units" units.*1.
Proof.
  intros Hp. split; [done |]. split.
  - apply Forall_forall. intros e He. apply plainb_plain.
    rewrite forallb_forall in Hp. apply Hp. by apply list_elem_of_In.
  - intros u. simpl. split.
    + intros Hu. apply lookup_union_is_Some. left. by apply dir_files_is_Some.
    + intros [Hu | [d Hd]]%lookup_union_is_Some.
      * destruct Hu as [d Hd]. apply dir_files_Some in Hd as (n & Heq & Hn).
        by simplify_eq.
      * apply dir_files_Some in Hd as (n & Heq & _). discriminate.
Qed.


(** ** Convergence *)

(** The first loop adds no skipped name to the map, the cleanup loop adds
    nothing. *)
Lemma sync_units_only {S : Type} `{!systemd S}
    (range : gmap string string → list string) (src dest : string) (p : pass S) files :
  fs_dirs (p_fs p) !! src = Some files → Forall plain files →
  units_only (p_state p) → units_only (p_state (sync range src dest p)).
Proof.
  intros Hdir Hplain Hu u [v Hv].
  rewrite (sync_listed _ _ _ _ files) in Hv by done. simpl in Hv.
  apply sync_cleanups_subseteq in Hv.
  destruct (sync_entries_keys src dest files (with_ok true p) u)
    as [Hk | (e & Hin & Hsk & ->)]; [by eauto | by apply Hu |].
  rewrite path_Base_plain; [done |]. by eapply Forall_forall in Hplain.
Qed.




(** The same with [systemctl]: the unit is started and stopped again. *)
Example sync_stat_denied_undoes :
  let fs := Filesys (dir_files "/units" [("a.service", "X")])%string
                    {[ "/units"%string := ["a.service"%string] ]} stat_denied at_once in
  let p' := sync sorted_keys "/units" "/etc" (main_init fs (manager_with [])) in
  p_ok p' = true ∧ p_state p' = ∅ ∧
  fs_files (p_fs p') !! ("/etc", "a.service")%string = None ∧
  actions (m_journal (p_sysd p')) =
    [["restart"; "a.service"]; ["stop"; "a.service"]]%string.
Proof. vm_compute. repeat split; reflexivity. Qed.



(** ** systemctl *)

Lemma isRunning_eq unit m :
  isRunning unit m =
  (Manager (m_active m) (m_faulty m) (m_journal m ++ [is_active_query unit]),
   match m_faulty m (is_active_query unit) with
   | Some _ => false
   | None => bool_decide (unit ∈ m_active m)
   end).
Proof.
  unfold isRunning, systemctl_cmd, is_active_query.
  destruct (m_faulty m _); simpl; [done |].
  by destruct (decide (unit ∈ m_active m));
    [rewrite bool_decide_eq_true_2 | rewrite bool_decide_eq_false_2].
Qed.

Lemma actions_app j1 j2 : actions (j1 ++ j2) = actions j1 ++ actions j2.
Proof. unfold actions. apply List.filter_app. Qed.

Lemma actions_query j unit : actions (j ++ [is_active_query unit]) = actions j.
Proof. rewrite actions_app. simpl. apply app_nil_r. Qed.

(** A call that finds the unit active changes nothing and runs no command
    but the query. *)
Lemma EnsureRunning_active unit m :
  m_faulty m (is_active_query unit) = None → unit ∈ m_active m →
  systemctl_EnsureRunning unit m =
  (Manager (m_active m) (m_faulty m) (m_journal m ++ [is_active_query unit]),
   (false, None)).
Proof.
  intros Hq Hin. unfold systemctl_EnsureRunning.
  rewrite isRunning_eq, Hq, bool_decide_eq_true_2 by done. done.
Qed.




(** ** The steps in closed form *)

Section Closed.
Context {S : Type} `{!systemd S}.
Implicit Types (p : pass S) (src dest unit entry : string).

Lemma sync_cleanup_absent src dest unit p :
  os_Stat (p_fs p) (src, unit) ≠ None →
  let r := EnsureStopped unit (p_sysd p) in
  let rm := os_Remove (p_fs p) (dest, unit) in
  let p' := sync_cleanup src dest unit p in
  p_sysd p' = r.1 ∧
  (r.2.2 ≠ None →
     p_ok p' = false ∧ p_fs p' = p_fs p ∧ p_state p' = p_state p) ∧
  (r.2.2 = None → rm.2 ≠ None →
     p_ok p' = false ∧ p_fs p' = p_fs p ∧ p_state p' = p_state p) ∧
  (r.2.2 = None → rm.2 = None →
     p_ok p' = p_ok p ∧ p_fs p' = rm.1 ∧
     fs_files (p_fs p') !! (dest, unit) = None ∧
     p_state p' = delete unit (p_state p)).
Proof.
  intros Hst. simpl. unfold sync_cleanup, path_Join.
  destruct (os_Stat (p_fs p) (src, unit)) as [e0|]; [| done]. simpl.
  destruct (EnsureStopped unit (p_sysd p)) as [sd [changed err]]. simpl.
  destruct err as [e|]; simpl; [by repeat split |].
  destruct (os_Remove (p_fs (if changed then _ else _)) (dest, unit))
    as [fs' rerr] eqn:Hrm.
  assert (Hrm' : os_Remove (p_fs p) (dest, unit) = (fs', rerr))
    by (by destruct changed).
  rewrite Hrm'. simpl. destruct rerr as [e'|]; simpl.
  - apply os_Remove_err in Hrm' as ->. by destruct changed.
  - apply os_Remove_ok in Hrm' as [_ Hgone]. by destruct changed.
Qed.

Lemma sync_entry_unfold src dest entry p c cur err :
  skipped entry = false →
  getChecksum (p_fs p) (src, path_Base entry) = (c, None) →
  getChecksum (p_fs p) (dest, path_Base entry) = (cur, err) →
  not_nil err && negb (IsNotExist err) = false →
  sync_entry src dest entry p =
  sync_install (path_Base entry) (src, path_Base entry) (dest, path_Base entry)
    c cur p.
Proof.
  intros Hsk Hc Hcur Herr. unfold sync_entry, path_Join. fold (skipped entry).
  by rewrite Hsk, Hc, Hcur, Herr.
Qed.

Lemma sync_apply_running unit c cur p :
  c = cur ∨ cur = ""%string →
  let r := EnsureRunning unit (p_sysd p) in
  let p' := sync_apply unit c cur p in
  p_sysd p' = r.1 ∧
  (r.2.2 = None →
     p_state p' = <[unit := c]> (p_state p) ∧ p_ok p' = p_ok p) ∧
  (r.2.2 ≠ None → p_state p' = p_state p ∧ p_ok p' = false).
Proof.
  intros Hc. simpl. unfold sync_apply. rewrite decide_True by done.
  destruct (EnsureRunning unit (p_sysd p)) as [sd [changed err]]. simpl.
  destruct err as [e|]; simpl; [done |]. by destruct changed.
Qed.

Lemma sync_apply_restart unit c cur p :
  c ≠ cur → cur ≠ ""%string →
  let r := Restart unit (p_sysd p) in
  let p' := sync_apply unit c cur p in
  (c = state_get (p_state p) unit → p' = p) ∧
  (c ≠ state_get (p_state p) unit →
     p_sysd p' = r.1 ∧
     (r.2 = None →
        p_state p' = <[unit := c]> (p_state p) ∧ p_ok p' = p_ok p) ∧
     (r.2 ≠ None → p_state p' = p_state p ∧ p_ok p' = false)).
Proof.
  intros Hc Hcur. simpl. unfold sync_apply.
  rewrite decide_False by (intros [? | ?]; done).
  split; intros Hst.
  - by rewrite decide_False by (intros Hn; done).
  - rewrite decide_True by done.
    destruct (Restart unit (p_sysd p)) as [sd err]. simpl.
    by destruct err as [e|].
Qed.

End Closed.

(** ** A listed file that is gone when it is read *)

(** C3, as the code has it: an entry of the listing whose file does not
    exist when the pass opens it makes the pass return false.  [getChecksum]
    returns the not-exist error, the test [err != nil] takes it, and the test
    [os.IsNotExist(err)] that follows is only reached with [err == nil]. *)
Theorem sync_vanished_entry_fails {S : Type} `{!systemd S}
    (range : gmap string string → list string) (src dest : string)
    (p : pass S) (files : list string) (entry : string) :
  fs_dirs (p_fs p) !! src = Some files →
  entry ∈ files → skipped entry = false →
  fs_files (p_fs p) !! (src, path_Base entry) = None →
  p_ok (sync range src dest p) = false ∧
  (fs_fault (p_fs p) OpOpen (src, path_Base entry) = None →
   sync_entry src dest entry p =
   fail (LogReadErr (path_Base entry) (Some ENOENT)) p).
Proof.
  intros Hdir Hin Hsk Hgone. split.
  - destruct (p_ok (sync range src dest p)) eqn:Hok; [| done]. exfalso.
    rewrite (sync_listed _ _ _ _ files) in Hok by done. simpl in Hok.
    apply sync_cleanups_ok in Hok.
    destruct (sync_entries_converged src dest files (with_ok true p) entry
      Hok Hin Hsk) as (data & _ & Hdata & _).
    simpl in Hdata. congruence.
  - intros Hopen. unfold sync_entry, path_Join. fold (skipped entry).
    by rewrite Hsk, getChecksum_absent.
Qed.

(** C3 at the listing [a.service] of a directory that no longer holds the
    file. *)
Lemma sync_vanished_entry_fails_witness :
  let p := main_init (Filesys ∅ {[ "/units" := ["a.service"] ]} no_faults at_once)%string
             (FakeSystemd "") in
  p_ok (sync sorted_keys "/units" "/etc" p) = false ∧
  (fs_fault (p_fs p) OpOpen ("/units", path_Base "a.service")%string = None →
   sync_entry "/units" "/etc" "a.service" p =
   fail (LogReadErr (path_Base "a.service") (Some ENOENT)) p).
Proof.
  apply (sync_vanished_entry_fails sorted_keys "/units" "/etc"
    (main_init (Filesys ∅ {[ "/units" := ["a.service"] ]} no_faults at_once)%string
       (FakeSystemd ""))
    ["a.service"%string] "a.service").
  - reflexivity.
  - apply list_elem_of_singleton. reflexivity.
  - reflexivity.
  - reflexivity.
Defined.

(** ** The steps of the first loop *)

(** C5: for a unit whose destination file was there with another fingerprint
    than the source's, once the copy has succeeded: if the source fingerprint
    is the one the map records, no call is made and nothing else changes;
    otherwise [Restart] is called, and the map takes the new fingerprint when
    the call succeeds, while a failing call clears [ok] and leaves the map as
    it was. *)
Theorem sync_entry_restart {S : Type} `{!systemd S}
    (src dest entry : string) (p : pass S) (c cur : string) (fs' : filesys) :
  skipped entry = false →
  let unit := path_Base entry in
  getChecksum (p_fs p) (src, unit) = (c, None) →
  getChecksum (p_fs p) (dest, unit) = (cur, None) →
  c ≠ cur →
  copyFile (src, unit) (dest, unit) (p_fs p) = (fs', None) →
  let r := Restart unit (p_sysd p) in
  let p' := sync_entry src dest entry p in
  p_fs p' = fs' ∧
  (c = state_get (p_state p) unit →
     p_sysd p' = p_sysd p ∧ p_state p' = p_state p ∧ p_ok p' = p_ok p) ∧
  (c ≠ state_get (p_state p) unit →
     p_sysd p' = r.1 ∧
     (r.2 = None → p_state p' = <[unit := c]> (p_state p) ∧ p_ok p' = p_ok p) ∧
     (r.2 ≠ None → p_state p' = p_state p ∧ p_ok p' = false)).
Proof.
  intros Hsk unit Hc Hcur Hne Hcp. simpl.
  rewrite (sync_entry_unfold src dest entry p c cur None) by done.
  unfold sync_install. rewrite decide_True by done. fold unit. rewrite Hcp. simpl.
  assert (Hcur0 : cur ≠ ""%string).
  { apply getChecksum_ok in Hcur as (d & _ & -> & _). apply fingerprint_not_empty. }
  set (q := logf (LogWrote unit) (with_fs fs' p)).
  destruct (sync_apply_restart unit c cur q Hne Hcur0) as [Hsame Hdiff].
  split; [by rewrite sync_apply_fs |]. split.
  - intros Heq. by rewrite (Hsame Heq).
  - intros Hd. apply (Hdiff Hd).
Qed.

(** C5 where the map records the fingerprint of the old content. *)
Lemma sync_entry_restart_witness :
  let p := Pass (testfs [("a.service", "Y")] [("a.service", "X")])%string
             (FakeSystemd "") []
             {[ "a.service"%string := fingerprint (bytes_of_string "X") ]} true in
  let p' := sync_entry "/units" "/etc" "a.service" p in
  p_sysd p' = FakeSystemd "Restart a.service" ∧
  p_state p' !! "a.service"%string = Some (fingerprint (bytes_of_string "Y")) ∧
  p_ok p' = true.
Proof.
  set (p := Pass (testfs [("a.service", "Y")] [("a.service", "X")])%string
             (FakeSystemd "") []
             {[ "a.service"%string := fingerprint (bytes_of_string "X") ]} true).
  simpl.
  destruct (sync_entry_restart "/units" "/etc" "a.service" p
    (fingerprint (bytes_of_string "Y")) (fingerprint (bytes_of_string "X"))
    (copyFile ("/units", "a.service") ("/etc", "a.service") (p_fs p)).1)%string
    as (_ & _ & Hr).
  - reflexivity.
  - vm_compute. reflexivity.
  - vm_compute. reflexivity.
  - vm_compute. discriminate.
  - vm_compute. reflexivity.
  - destruct Hr as (Hsd & Hok & _).
    + vm_compute. discriminate.
    + destruct (Hok eq_refl) as [Hst Hk].
      split; [exact Hsd |]. split; [| exact Hk].
      rewrite Hst. apply lookup_insert_eq.
Defined.





(** ** The commands a pass sends to systemctl *)

Lemma after_commands_refl P m : after_commands P m m.
Proof. split; [done |]. exists []. by rewrite app_nil_r. Qed.

Lemma after_commands_trans P m1 m2 m3 :
  after_commands P m1 m2 → after_commands P m2 m3 → after_commands P m1 m3.
Proof.
  intros [Hf1 (e1 & Hj1 & HP1)] [Hf2 (e2 & Hj2 & HP2)].
  split; [congruence |]. exists (e1 ++ e2).
  split; [by rewrite Hj2, Hj1, app_assoc | by apply Forall_app].
Qed.

Lemma after_commands_weaken (P Q : list string → Prop) m m' :
  (∀ a, P a → Q a) → after_commands P m m' → after_commands Q m m'.
Proof.
  intros HPQ [Hf (e & Hj & HP)]. split; [done |]. exists e.
  split; [done |]. eapply Forall_impl; eauto.
Qed.

Lemma systemctl_cmd_after args m :
  after_commands (λ a, a = args) m (systemctl_cmd args m).1.
Proof.
  unfold systemctl_cmd. destruct (m_faulty m args); simpl;
    (split; [done |]); exists [args]; by repeat constructor.
Qed.

Lemma exec_after args m : after_commands (λ a, a = args) m (exec args m).1.
Proof.
  pose proof (systemctl_cmd_after args m) as H. unfold exec.
  destruct (systemctl_cmd args m) as [m' [out [e|]]]; simpl in *; [| done].
  by destruct (0 <? String.length out)%nat.
Qed.

Lemma isRunning_after unit m :
  after_commands (λ a, a = is_active_query unit) m (isRunning unit m).1.
Proof.
  rewrite isRunning_eq. simpl. split; [done |].
  exists [is_active_query unit]. by repeat constructor.
Qed.

Lemma Restart_after unit m :
  after_commands (λ a, a = ["daemon-reload"%string] ∨ a = ["restart"; unit]%string)
    m (systemctl_Restart unit m).1.
Proof.
  unfold systemctl_Restart.
  pose proof (exec_after ["daemon-reload"%string] m) as H1.
  destruct (exec ["daemon-reload"%string] m) as [m1 [e|]]; simpl in *.
  - eapply after_commands_weaken; [| exact H1]. intros a ->. by left.
  - eapply after_commands_trans.
    + eapply after_commands_weaken; [| exact H1]. intros a ->. by left.
    + eapply after_commands_weaken; [| apply exec_after]. intros a ->. by right.
Qed.

Lemma EnsureRunning_after unit m :
  after_commands (λ a, a = is_active_query unit ∨ a = ["restart"; unit]%string)
    m (systemctl_EnsureRunning unit m).1.
Proof.
  unfold systemctl_EnsureRunning.
  pose proof (isRunning_after unit m) as H1.
  destruct (isRunning unit m) as [m1 running]; simpl in *.
  destruct running; simpl.
  - eapply after_commands_weaken; [| exact H1]. intros a ->. by left.
  - pose proof (exec_after ["restart"; unit]%string m1) as H2.
    destruct (exec ["restart"; unit]%string m1) as [m2 err]; simpl in *.
    eapply after_commands_trans.
    + eapply after_commands_weaken; [| exact H1]. intros a ->. by left.
    + eapply after_commands_weaken; [| exact H2]. intros a ->. by right.
Qed.


(** The first loop never stops a unit. *)
Lemma sync_apply_after unit c cur (p : pass manager) :
  after_commands (λ a, ∀ u, a ≠ ["stop"; u]%string)
    (p_sysd p) (p_sysd (sync_apply unit c cur p)).
Proof.
  unfold sync_apply.
  destruct (decide (c = cur ∨ cur = ""%string)).
  - pose proof (EnsureRunning_after unit (p_sysd p)) as H.
    change (EnsureRunning unit (p_sysd p)) with (systemctl_EnsureRunning unit (p_sysd p)).
    destruct (systemctl_EnsureRunning unit (p_sysd p)) as [sd [changed err]].
    simpl in H.
    assert (Hgoal : after_commands (λ a, ∀ u, a ≠ ["stop"; u]%string) (p_sysd p) sd).
    { eapply after_commands_weaken; [| exact H].
      intros a [-> | ->] u; unfold is_active_query; congruence. }
    destruct err; simpl; [done |]. by destruct changed.
  - destruct (decide (c ≠ state_get (p_state p) unit)); [| apply after_commands_refl].
    pose proof (Restart_after unit (p_sysd p)) as H.
    change (Restart unit (p_sysd p)) with (systemctl_Restart unit (p_sysd p)).
    destruct (systemctl_Restart unit (p_sysd p)) as [sd err]. simpl in H.
    assert (Hgoal : after_commands (λ a, ∀ u, a ≠ ["stop"; u]%string) (p_sysd p) sd).
    { eapply after_commands_weaken; [| exact H]. intros a [-> | ->] u; congruence. }
    by destruct err.
Qed.

Lemma sync_entry_after src dest entry (p : pass manager) :
  after_commands (λ a, ∀ u, a ≠ ["stop"; u]%string)
    (p_sysd p) (p_sysd (sync_entry src dest entry p)).
Proof.
  unfold sync_entry, sync_install.
  repeat (case_match; simplify_eq/=); try apply after_commands_refl.
  - match goal with |- context [sync_apply ?u ?c ?cur ?q] =>
      apply (sync_apply_after u c cur q) end.
  - apply sync_apply_after.
Qed.

Lemma sync_entries_after src dest files (p : pass manager) :
  after_commands (λ a, ∀ u, a ≠ ["stop"; u]%string)
    (p_sysd p) (p_sysd (sync_entries src dest files p)).
Proof.
  induction files as [|e files IH] using rev_ind; [apply after_commands_refl |].
  rewrite sync_entries_snoc.
  eapply after_commands_trans; [exact IH | apply sync_entry_after].
Qed.






(** ** The cleanup loop, unit by unit *)

Lemma range_split (range : gmap string string → list string)
    (m : gmap string string) (u : string) :
  range_order range → is_Some (m !! u) →
  ∃ l1 l2, range m = l1 ++ (u :: l2) ∧ (u ∉ l1) ∧ (u ∉ l2).
Proof.
  intros Hrange Hu.
  assert (Hin : u ∈ range m).
  { rewrite (Hrange m). by apply elem_of_elements, elem_of_dom. }
  assert (Hnd : NoDup (range m)).
  { rewrite (Hrange m). apply NoDup_elements. }
  apply list_elem_of_split in Hin as (l1 & l2 & Heq).
  exists l1, l2. split; [done |]. rewrite Heq in Hnd.
  apply NoDup_app in Hnd as (_ & Hl1 & Hl2). apply NoDup_cons in Hl2 as [Hl2 _].
  split; [| done]. intros Hin. apply (Hl1 u Hin). left.
Qed.

Section CleanupVisit.
Context {S : Type} `{!systemd S}.
Implicit Types (p : pass S) (src dest unit entry : string).

Lemma sync_cleanups_app src dest l1 l2 p :
  sync_cleanups src dest (l1 ++ l2) p =
  sync_cleanups src dest l2 (sync_cleanups src dest l1 p).
Proof. unfold sync_cleanups. apply fold_left_app. Qed.

(** Steps for other units leave a unit's entry and destination record. *)
Lemma sync_cleanups_untouched src dest units p u :
  u ∉ units →
  p_state (sync_cleanups src dest units p) !! u = p_state p !! u ∧
  fs_files (p_fs (sync_cleanups src dest units p)) !! (dest, u) =
  fs_files (p_fs p) !! (dest, u).
Proof.
  revert p. induction units as [|k units IH]; intros p Hu; [done |].
  apply not_elem_of_cons in Hu as [Hk Hu]. rewrite sync_cleanups_cons.
  destruct (IH (sync_cleanup src dest k p) Hu) as [-> ->].
  rewrite sync_cleanup_state_other by done.
  rewrite sync_cleanup_other by congruence. done.
Qed.

(** The cleanup loop visits a key once: what the pass leaves for the unit
    is what the one step on it leaves. *)
Lemma sync_cleanups_visit range src dest p u :
  range_order range → is_Some (p_state p !! u) →
  ∃ l1 l2,
    range (p_state p) = l1 ++ (u :: l2) ∧ (u ∉ l1) ∧ (u ∉ l2) ∧
    let pre := sync_cleanups src dest l1 p in
    let post := sync_cleanup src dest u pre in
    let final := sync_cleanups src dest (range (p_state p)) p in
    final = sync_cleanups src dest l2 post ∧
    p_state pre !! u = p_state p !! u ∧
    fs_files (p_fs pre) !! (dest, u) = fs_files (p_fs p) !! (dest, u) ∧
    (os_Stat (p_fs pre) (src, u) = None ↔ os_Stat (p_fs p) (src, u) = None) ∧
    p_state final !! u = p_state post !! u ∧
    fs_files (p_fs final) !! (dest, u) = fs_files (p_fs post) !! (dest, u) ∧
    (p_ok post = false → p_ok final = false).
Proof.
  intros Hrange Hu.
  destruct (range_split range (p_state p) u Hrange Hu) as (l1 & l2 & Heq & H1 & H2).
  exists l1, l2. split; [done |]. split; [done |]. split; [done |]. simpl.
  assert (Hfinal : sync_cleanups src dest (range (p_state p)) p =
    sync_cleanups src dest l2 (sync_cleanup src dest u (sync_cleanups src dest l1 p))).
  { by rewrite Heq, sync_cleanups_app, sync_cleanups_cons. }
  rewrite Hfinal. split; [done |].
  destruct (sync_cleanups_untouched src dest l1 p u H1) as [-> ->].
  destruct (sync_cleanups_untouched src dest l2
    (sync_cleanup src dest u (sync_cleanups src dest l1 p)) u H2) as [-> ->].
  repeat split; try done; try apply sync_cleanups_stat.
  intros Hok. destruct (p_ok (sync_cleanups src dest l2 _)) eqn:E; [| done].
  apply sync_cleanups_ok in E. congruence.
Qed.

End CleanupVisit.


(** ** Units whose source file is gone *)


(** The pass of that counterexample: it returns true with the record and
    the entry gone, and has run nothing but the query. *)
Example sync_query_fails_no_stop :
  let p1 := sync sorted_keys "/units" "/etc"
              (main_init (testfs [("a.service", "X")] []) (manager_with []))%string in
  let p := with_sysd (manager_failing ["a.service"] [is_active_query "a.service"])%string
             (with_fs (testfs [] [("a.service", "X")])%string p1) in
  let p' := sync sorted_keys "/units" "/etc" p in
  p_ok p' = true ∧ p_state p' = ∅ ∧
  fs_files (p_fs p') !! ("/etc", "a.service")%string = None ∧
  m_journal (p_sysd p') = [is_active_query "a.service"].
Proof. vm_compute. repeat split; reflexivity. Qed.



(** C9: in the cleanup loop a failing [stat] of any kind sends the unit down
    the path of a unit whose file is gone.  When [stat] on the source path
    fails for a reason other than a missing file, whether or not the file is
    there, the error is not a not-exist error, and still [EnsureStopped] is
    called, and when it and the removal of the destination record succeed the
    record is gone and the entry deleted. *)
Theorem sync_cleanup_stat_fault {S : Type} `{!systemd S}
    (src dest unit : string) (p : pass S) (f : fault) :
  fs_fault (p_fs p) OpStat (src, unit) = Some f →
  os_Stat (p_fs p) (src, unit) = Some (EFault f) ∧
  IsNotExist (os_Stat (p_fs p) (src, unit)) = false ∧
  let r := EnsureStopped unit (p_sysd p) in
  let rm := os_Remove (p_fs p) (dest, unit) in
  let p' := sync_cleanup src dest unit p in
  p_sysd p' = r.1 ∧
  (r.2.2 = None → rm.2 = None →
     p_ok p' = p_ok p ∧
     fs_files (p_fs p') !! (dest, unit) = None ∧
     p_state p' = delete unit (p_state p)).
Proof.
  intros Hf.
  assert (Hst : os_Stat (p_fs p) (src, unit) = Some (EFault f))
    by (unfold os_Stat; by rewrite Hf).
  split; [done |]. split; [by rewrite Hst |]. simpl.
  destruct (sync_cleanup_absent src dest unit p) as (Hsd & _ & _ & Hboth);
    [by rewrite Hst |].
  split; [done |]. intros Hr Hrm.
  destruct (Hboth Hr Hrm) as (? & _ & ? & ?). done.
Qed.

(** C9 at a unit whose source file is there while [stat] is denied. *)
Lemma sync_cleanup_stat_fault_witness :
  let fs := Filesys (dir_files "/units" [("a.service", "X")] ∪
                     dir_files "/etc" [("a.service", "X")])%string
                    {[ "/units"%string := ["a.service"%string] ]} stat_denied at_once in
  let p := Pass fs (FakeSystemd "") []
             {[ "a.service"%string := fingerprint (bytes_of_string "X") ]} true in
  let p' := sync_cleanup "/units" "/etc" "a.service" p in
  is_Some (fs_files fs !! ("/units", "a.service")%string) ∧
  p_sysd p' = FakeSystemd "EnsureStopped a.service" ∧
  p_ok p' = true ∧
  fs_files (p_fs p') !! ("/etc", "a.service")%string = None ∧
  p_state p' = delete "a.service"%string (p_state p).
Proof.
  intros fs p p'. subst p'.
  destruct (sync_cleanup_stat_fault "/units" "/etc" "a.service" p EACCES eq_refl)
    as (_ & _ & Hsd & Hboth).
  split; [vm_compute; eauto |]. split; [exact Hsd |].
  apply Hboth; vm_compute; reflexivity.
Defined.

(** ** The empty fingerprint *)

Lemma reachable_no_empty {S : Type} `{!systemd S} (src dest : string) (p : pass S) :
  reachable src dest p → no_empty (p_state p).
Proof.
  induction 1 as [fs sd | range p _ IH | fs sd p _ IH].
  - intros u. simpl. by rewrite lookup_empty.
  - by apply sync_no_empty.
  - done.
Qed.

(** C10: a fingerprint that [getChecksum] returns without an error is 64
    hexadecimal digits, so it is not the empty string; [getChecksum] returns
    the empty string exactly when it returns an error; where the pass goes on
    after reading the destination (no error, or a not-exist error), the
    destination fingerprint is empty exactly when the destination file does
    not exist; and a pass puts no empty string into the map, so that the map
    of [main] never holds one. *)
Theorem fingerprint_never_empty :
  (∀ fs name c, getChecksum fs name = (c, None) →
     String.length c = 64%nat ∧
     Forall (λ ch, ch ∈ Hex.hextable) (list_ascii_of_string c) ∧
     c ≠ ""%string) ∧
  (∀ fs name c err, getChecksum fs name = (c, err) →
     (c = ""%string ↔ err ≠ None)) ∧
  (∀ fs target cur err, getChecksum fs target = (cur, err) →
     not_nil err && negb (IsNotExist err) = false →
     (cur = ""%string ↔ fs_files fs !! target = None)) ∧
  (∀ (S : Type) (sysd : systemd S) range src dest (p : pass S),
     no_empty (p_state p) → no_empty (p_state (sync range src dest p))) ∧
  (∀ (S : Type) (sysd : systemd S) src dest (p : pass S),
     reachable src dest p → no_empty (p_state p)).
Proof.
  split; [| split; [| split; [| split]]].
  - intros fs name c Hc. apply getChecksum_ok in Hc as (data & _ & -> & _).
    auto using fingerprint_length, fingerprint_hex, fingerprint_not_empty.
  - intros fs name c [e|] Hc.
    + apply getChecksum_err in Hc as ->. done.
    + apply getChecksum_ok in Hc as (data & _ & -> & _).
      split; [| done]. intros Hn. by apply fingerprint_not_empty in Hn.
  - intros fs target cur [e|] Hc Hgo.
    + destruct e; try done. pose proof (getChecksum_err _ _ _ _ Hc) as ->.
      apply getChecksum_not_exist in Hc as [Hnone _]. done.
    + apply getChecksum_ok in Hc as (data & Hdata & -> & _).
      split; [intros Hn; by apply fingerprint_not_empty in Hn | congruence].
  - intros S sysd range src dest p. apply sync_no_empty.
  - intros S sysd src dest p. apply reachable_no_empty.
Qed.

(** C10 at the first pass of [main] over one unit file. *)
Lemma fingerprint_never_empty_witness :
  let fs := testfs [("a.service", "X")]%string [] in
  String.length (getChecksum fs ("/units", "a.service")%string).1 = 64%nat ∧
  no_empty (p_state (sync sorted_keys "/units" "/etc" (main_init fs (FakeSystemd "")))).
Proof.
  intros fs. destruct fingerprint_never_empty as (Hlen & _ & _ & _ & Hreach).
  split.
  - destruct (Hlen fs ("/units", "a.service")%string
      (getChecksum fs ("/units", "a.service")%string).1) as [Hl _].
    + vm_compute. reflexivity.
    + exact Hl.
  - apply (Hreach fakeSystemd fake "/units" "/etc")%string.
    apply reach_sync, reach_init.
Defined.

(** ** The event loop *)





(** ** Idempotence *)

Lemma sync_apply_running_eq {S : Type} `{!systemd S}
    (unit c cur : string) (p : pass S) (sd : S) :
  c = cur ∨ cur = ""%string →
  EnsureRunning unit (p_sysd p) = (sd, (false, None)) →
  sync_apply unit c cur p =
  with_state (<[unit := c]> (p_state p)) (with_sysd sd p).
Proof.
  intros Hc Hr. unfold sync_apply. rewrite decide_True by done. by rewrite Hr.
Qed.

(** A unit whose source and destination files have one fingerprint, which
    is the one the map records, and whose service is active: the step only
    queries the manager. *)
Lemma sync_entry_settled src dest entry (p1 q : pass manager) data data' :
  unchanged p1 q →
  skipped entry = false →
  let unit := path_Base entry in
  fs_files (p_fs p1) !! (src, unit) = Some data →
  fs_files (p_fs p1) !! (dest, unit) = Some data' →
  fingerprint data' = fingerprint data →
  p_state p1 !! unit = Some (fingerprint data) →
  fs_fault (p_fs p1) OpOpen (src, unit) = None →
  fs_fault (p_fs p1) OpRead (src, unit) = None →
  fs_fault (p_fs p1) OpOpen (dest, unit) = None →
  fs_fault (p_fs p1) OpRead (dest, unit) = None →
  unit ∈ m_active (p_sysd p1) →
  m_faulty (p_sysd p1) (is_active_query unit) = None →
  unchanged p1 (sync_entry src dest entry q).
Proof.
  intros (Hfs & Hst & Hlog & Hok & Hact & Hfl & Hj) Hsk unit
    Hsrc Hdest Hfp Hrec Ho1 Hr1 Ho2 Hr2 Hrun Hq.
  rewrite (sync_entry_unfold src dest entry q (fingerprint data) (fingerprint data) None);
    [| done
     | rewrite Hfs; by apply getChecksum_ok_intro
     | rewrite Hfs, <- Hfp; by apply getChecksum_ok_intro
     | done].
  fold unit. unfold sync_install. rewrite decide_False by (intros Hn; done).
  rewrite (sync_apply_running_eq unit _ _ q
    (Manager (m_active (p_sysd q)) (m_faulty (p_sysd q))
       (m_journal (p_sysd q) ++ [is_active_query unit]))).
  - unfold unchanged. simpl. rewrite actions_query, Hst.
    rewrite insert_id by done. done.
  - by left.
  - apply EnsureRunning_active; [by rewrite Hfl | by rewrite Hact].
Qed.

(** C2, as the specification words it, fails where the first pass had
    nothing to ask of the service manager: the map already records the fingerprint of
    the source file, the destination file differs, and the unit is not
    active.  The first pass copies the file, makes no call and returns true;
    the second pass finds the files equal, calls [EnsureRunning], and that
    starts the unit. *)
Lemma idempotence_counterexample : ¬ idempotence_claim.
Proof.
  intros H.
  destruct (H sorted_keys sorted_keys "/units" "/etc"
    (Pass (testfs [("a.service", "Y")] [("a.service", "X")]) (manager_with []) []
       {[ "a.service" := fingerprint (bytes_of_string "Y") ]} true)
    ["a.service"] sorted_keys_order sorted_keys_order)%string
    as (_ & _ & _ & Hact).
  - apply testfs_healthy.
  - apply (testfs_listing [("a.service", "Y")] [("a.service", "X")])%string.
    reflexivity.
  - intros args. reflexivity.
  - vm_compute. reflexivity.
  - clear H. vm_compute in Hact. discriminate Hact.
Qed.

(** C2 (amended): after a pass that returned true, if every unit of the
    Desired Set is active (and the query for it works), a second pass over
    the unchanged file system, service manager and map returns true and
    leaves the file system, the map, the log and the set of active units as
    they were; the only commands it runs are [is-active] queries.  The file
    system is one where [stat] on the source entries and reads of the
    destination entries fail only for missing files. *)
Theorem sync_idempotent
    (range1 range2 : gmap string string → list string) (src dest : string)
    (p0 : pass manager) (files : list string) :
  range_order range1 → range_order range2 →
  fs_dirs (p_fs p0) !! src = Some files → Forall plain files →
  stat_reliable (p_fs p0) src →
  (∀ u, fs_fault (p_fs p0) OpRead (dest, u) = None) →
  let p1 := sync range1 src dest p0 in
  p_ok p1 = true →
  (∀ u, u ∈ desired files →
     u ∈ m_active (p_sysd p1) ∧ m_faulty (p_sysd p1) (is_active_query u) = None) →
  let p2 := sync range2 src dest p1 in
  p_ok p2 = true ∧ p_state p2 = p_state p1 ∧ p_fs p2 = p_fs p1 ∧
  p_log p2 = p_log p1 ∧
  m_active (p_sysd p2) = m_active (p_sysd p1) ∧
  actions (m_journal (p_sysd p2)) = actions (m_journal (p_sysd p1)).
Proof.
  intros Hr1 Hr2 Hdir Hplain Hstat Hread p1 Hok Hlive p2.
  destruct (sync_success range1 src dest p0 files Hr1 Hdir Hplain Hstat Hok)
    as (Hsrc & Hdes & Hkeys & _). fold p1 in Hsrc, Hdes, Hkeys.
  destruct (sync_env range1 src dest p0) as [Hdirs Hfault]. fold p1 in Hdirs, Hfault.
  assert (Hdir1 : fs_dirs (p_fs p1) !! src = Some files) by (by rewrite Hdirs).
  assert (Hloop : ∀ l, l ⊆ files →
    unchanged p1 (sync_entries src dest l (with_ok true p1))).
  { induction l as [|e l IH] using rev_ind; intros Hl.
    - unfold unchanged. simpl. by rewrite Hok.
    - rewrite sync_entries_snoc.
      assert (He : e ∈ files) by (apply Hl, elem_of_app; right; left).
      assert (IH' : unchanged p1 (sync_entries src dest l (with_ok true p1))).
      { apply IH. intros x Hx. apply Hl, elem_of_app. by left. }
      destruct (skipped e) eqn:Hsk; [by rewrite sync_entry_skipped |].
      assert (Hd : e ∈ desired files) by (by apply elem_of_desired).
      destruct (Hdes e Hd) as (data & data' & H1 & H2 & H3 & H4 & H5 & H6 & H7).
      destruct (Hlive e Hd) as [Hrun Hq].
      assert (Hb : path_Base e = e)
        by (apply path_Base_plain; by eapply Forall_forall in Hplain).
      apply (sync_entry_settled src dest e p1 _ data data'); rewrite ?Hb, ?Hfault;
        done. }
  subst p2. rewrite (sync_listed _ _ _ _ files) by done. simpl.
  specialize (Hloop files (reflexivity _)).
  set (q := sync_entries src dest files (with_ok true p1)) in *.
  destruct Hloop as (Hfs & Hst & Hlog & Hokq & Hact & Hfl & Hj).
  rewrite sync_cleanups_present.
  - by rewrite Hokq.
  - intros u Hu. rewrite (Hr2 (p_state q)) in Hu.
    apply elem_of_elements, elem_of_dom in Hu. rewrite Hst in Hu.
    rewrite Hfs. apply os_Stat_present; [by rewrite Hfault | by apply Hkeys].
Qed.

(** C2 (amended) after the first pass of [main] over one unit file and one
    editor file. *)
Lemma sync_idempotent_witness :
  let p0 := main_init (testfs [("a.service", "X"); ("b.swp", "Y")] [])%string
              (manager_with []) in
  let p1 := sync sorted_keys "/units" "/etc" p0 in
  let p2 := sync sorted_keys "/units" "/etc" p1 in
  p_ok p2 = true ∧ p_state p2 = p_state p1 ∧ p_fs p2 = p_fs p1 ∧
  p_log p2 = p_log p1 ∧
  m_active (p_sysd p2) = m_active (p_sysd p1) ∧
  actions (m_journal (p_sysd p2)) = actions (m_journal (p_sysd p1)).
Proof.
  intros p0.
  pose proof (testfs_listing [("a.service", "X"); ("b.swp", "Y")] [] eq_refl)%string
    as (Hdir & Hplain & _).
  apply (sync_idempotent sorted_keys sorted_keys "/units" "/etc" p0
    ["a.service"; "b.swp"]%string sorted_keys_order sorted_keys_order Hdir Hplain).
  - intros u. reflexivity.
  - intros u. reflexivity.
  - vm_compute. reflexivity.
  - clear. intros u [Hin Hsk]%elem_of_desired.
    assert (Hu : u = "a.service"%string).
    { apply elem_of_cons in Hin as [-> | Hin]; [reflexivity |].
      apply list_elem_of_singleton in Hin as ->. discriminate Hsk. }
    subst u. clear. split.
    + apply (bool_decide_unpack _). vm_compute. exact I.
    + vm_compute. reflexivity.
Defined.

(** * Further properties of the code *)

(** ** More on [copyFile] *)

(** X1: a copy that succeeds, between two different files, leaves the
    destination with the bytes of the source and touches no other file;
    where the destination can be opened and read, [getChecksum] then returns
    for it what it returned for the source. *)
Theorem copyFile_copies (src dest : string * string) (fs fs' : filesys) :
  copyFile src dest fs = (fs', None) → src ≠ dest →
  is_Some (fs_files fs !! src) ∧
  fs_files fs' !! dest = fs_files fs !! src ∧
  (∀ q, q ≠ dest → fs_files fs' !! q = fs_files fs !! q) ∧
  (fs_fault fs OpOpen dest = None → fs_fault fs OpRead dest = None →
   getChecksum fs' dest = getChecksum fs src ∧ (getChecksum fs src).2 = None).
Proof.
  intros Hcp Hne.
  destruct (copyFile_ok _ _ _ _ Hcp Hne) as (data & Hsrc & Hdest).
  destruct (copyFile_env _ _ _ _ _ Hcp) as [_ Hfault].
  split; [eauto |]. split; [congruence |]. split.
  - intros q Hq. by apply (copyFile_other _ _ _ _ _ _ Hcp).
  - intros Ho Hr.
    assert (Hsrcok : getChecksum fs src = (fingerprint data, None)).
    { revert Hcp. unfold copyFile, getChecksum, os_Open, os_Create, read_all, io_Copy.
      rewrite Hsrc.
      destruct (fs_fault fs OpOpen src); [done |].
      destruct (fs_fault fs OpCreate dest); [done |]. simpl.
      destruct (fs_fault fs OpRead src); [| done].
      destruct (fs_fault fs OpWrite dest); [case_match |]; done. }
    rewrite Hsrcok. split; [| done].
    apply getChecksum_ok_intro; [done | by rewrite Hfault | by rewrite Hfault].
Qed.

(** X1 at the copy of a unit file into an empty destination directory. *)
Lemma copyFile_copies_witness :
  let fs := testfs [("a.service", "X")]%string [] in
  let fs' := (copyFile ("/units", "a.service") ("/etc", "a.service") fs).1%string in
  fs_files fs' !! ("/etc", "a.service")%string =
  fs_files fs !! ("/units", "a.service")%string.
Proof.
  intros fs fs'.
  destruct (copyFile_copies ("/units", "a.service") ("/etc", "a.service") fs fs')%string
    as (_ & H & _).
  - vm_compute. reflexivity.
  - discriminate.
  - exact H.
Defined.

(** X2: a copy of a file onto itself that reports success has emptied the
    file: [os.Create] truncates it before [io.Copy] reads it. *)
Theorem copyFile_onto_itself (name : string * string) (fs fs' : filesys) :
  copyFile name name fs = (fs', None) →
  is_Some (fs_files fs !! name) ∧ fs_files fs' !! name = Some [] ∧
  (∀ q, q ≠ name → fs_files fs' !! q = fs_files fs !! q).
Proof.
  intros Hcp. split; [| split].
  - revert Hcp. unfold copyFile, os_Open.
    destruct (fs_fault fs OpOpen name); [done |].
    destruct (fs_files fs !! name); [eauto | done].
  - revert Hcp. unfold copyFile, os_Open, os_Create, io_Copy.
    repeat (case_match; simplify_eq/=); try done; intros [= <-]; simpl;
      rewrite !lookup_insert_eq; done.
  - intros q Hq. by apply (copyFile_other _ _ _ _ _ _ Hcp).
Qed.

(** X2 at a unit file copied onto itself. *)
Lemma copyFile_onto_itself_witness :
  let fs := testfs [("a.service", "X")]%string [] in
  fs_files (copyFile ("/units", "a.service") ("/units", "a.service") fs).1%string
    !! ("/units", "a.service")%string = Some [].
Proof.
  intros fs.
  destruct (copyFile_onto_itself ("/units", "a.service")%string fs
    (copyFile ("/units", "a.service") ("/units", "a.service") fs).1%string)
    as (_ & H & _).
  - vm_compute. reflexivity.
  - exact H.
Defined.

(** X3: a copy that fails changes no file but the destination.  When the
    source cannot be opened or the destination cannot be created, nothing is
    changed.  Otherwise the destination was truncated and [io.Copy] stopped
    at an error: the destination is left with the first bytes of the source,
    as many as were written by then, none of them at worst. *)
Theorem copyFile_failure (src dest : string * string) (fs fs' : filesys) (e : error) :
  copyFile src dest fs = (fs', Some e) →
  (∀ q, q ≠ dest → fs_files fs' !! q = fs_files fs !! q) ∧
  (os_Open fs src ≠ None ∨ fs_fault fs OpCreate dest ≠ None → fs' = fs) ∧
  (os_Open fs src = None → fs_fault fs OpCreate dest = None →
   ∃ data n, fs_files fs !! src = Some data ∧
             fs_files fs' !! dest = Some (take n data) ∧
             (src = dest → n = 0%nat)).
Proof.
  intros Hcp. split; [| split]; [| | intros Ho Hc].
  - intros q Hq. by apply (copyFile_other _ _ _ _ _ _ Hcp).
  - revert Hcp. unfold copyFile, os_Create.
    destruct (os_Open fs src); [by intros [= <- _] |].
    destruct (fs_fault fs OpCreate dest); [by intros [= <- _] |].
    intros _ [? | ?]; done.
  - assert (Hsrc : ∃ data, fs_files fs !! src = Some data).
    { revert Ho. unfold os_Open. destruct (fs_fault fs OpOpen src); [done |].
      destruct (fs_files fs !! src); [eauto | done]. }
    destruct Hsrc as [data Hsrc]. exists data.
    revert Hcp. unfold copyFile, os_Create. rewrite Ho, Hc. unfold io_Copy.
    cbn [fs_files fs_fault fs_partial with_files].
    destruct (decide (src = dest)) as [<- | Hne].
    + rewrite lookup_insert_eq. cbn [default id]. rewrite take_nil.
      intros Hcp. exists 0%nat. split; [done |]. split; [| done].
      rewrite take_0. revert Hcp.
      repeat (case_match; simplify_eq/=); intros; simplify_eq/=;
        rewrite ?take_nil; apply lookup_insert_eq.
    + rewrite lookup_insert_ne, Hsrc by done. cbn [default].
      repeat (case_match; simplify_eq/=); intros; simplify_eq/=;
        eexists; rewrite lookup_insert_eq, ?take_take;
        (split_and!; [done.. |]); by intros ->.
Qed.

(** A disk that is full after one byte: the copy fails and the destination
    keeps that byte. *)
Example copyFile_disk_full :
  let fs := Filesys (dir_files "/units" [("a.service", "XY")])%string ∅
              (λ op q, match op with OpWrite => Some ENOSPC | _ => None end)
              (λ _, 1%nat) in
  let r := copyFile ("/units", "a.service") ("/etc", "a.service")%string fs in
  r.2 = Some (EFault ENOSPC) ∧
  fs_files r.1 !! ("/etc", "a.service")%string = Some (bytes_of_string "X").
Proof. vm_compute. split; reflexivity. Qed.

(** X3 at that disk. *)
Lemma copyFile_failure_witness :
  let fs := Filesys (dir_files "/units" [("a.service", "XY")])%string ∅
              (λ op q, match op with OpWrite => Some ENOSPC | _ => None end)
              (λ _, 1%nat) in
  let fs' := (copyFile ("/units", "a.service") ("/etc", "a.service") fs).1%string in
  ∃ data n, fs_files fs !! ("/units", "a.service")%string = Some data ∧
            fs_files fs' !! ("/etc", "a.service")%string = Some (take n data).
Proof.
  intros fs fs'.
  destruct (copyFile_failure ("/units", "a.service") ("/etc", "a.service") fs fs'
    (EFault ENOSPC))%string as (_ & _ & H).
  - vm_compute. reflexivity.
  - destruct H as (data & n & Hs & Hd & _); [reflexivity | reflexivity |].
    exists data, n. split; [exact Hs | exact Hd].
Defined.

(** ** What a pass touches *)

Section Touches.
Context {S : Type} `{!systemd S}.
Implicit Types (p : pass S) (src dest unit entry : string).

Lemma sync_entries_outside src dest files p q :
  q.1 ≠ dest →
  fs_files (p_fs (sync_entries src dest files p)) !! q = fs_files (p_fs p) !! q.
Proof.
  intros Hq. induction files as [|e files IH] using rev_ind; [done |].
  rewrite sync_entries_snoc, sync_entry_other; [done |].
  intros ->. by apply Hq.
Qed.

Lemma sync_cleanups_outside src dest units p q :
  q.1 ≠ dest →
  fs_files (p_fs (sync_cleanups src dest units p)) !! q = fs_files (p_fs p) !! q.
Proof.
  intros Hq. revert p. induction units as [|k units IH]; intros p; [done |].
  rewrite sync_cleanups_cons, IH, sync_cleanup_other; [done |].
  intros ->. by apply Hq.
Qed.

Lemma sync_entry_same_directory dir entry p :
  p_fs (sync_entry dir dir entry p) = p_fs p.
Proof.
  unfold sync_entry, path_Join.
  repeat (case_match; simplify_eq/=); try done.
  by apply sync_install_same.
Qed.

(** X4: a pass changes no file outside the destination directory; and when
    the source directory is the destination directory, its first loop changes
    no file at all, the copy being made only between files that differ. *)
Theorem sync_writes_destination_only
    (range : gmap string string → list string) (src dest : string) (p : pass S) :
  (∀ q, q.1 ≠ dest →
     fs_files (p_fs (sync range src dest p)) !! q = fs_files (p_fs p) !! q) ∧
  (∀ files, p_fs (sync_entries src src files p) = p_fs p).
Proof.
  split.
  - intros q Hq. destruct (fs_dirs (p_fs p) !! src) as [files|] eqn:E.
    + rewrite (sync_listed _ _ _ _ files) by done. simpl.
      rewrite sync_cleanups_outside by done.
      by rewrite (sync_entries_outside src dest files (with_ok true p)).
    + by rewrite sync_not_listed.
  - intros files. induction files as [|e files IH] using rev_ind; [done |].
    by rewrite sync_entries_snoc, sync_entry_same_directory.
Qed.

Lemma sync_entries_skipped_untouched src dest files p u :
  Forall plain files → skipped u = true →
  p_state (sync_entries src dest files p) !! u = p_state p !! u ∧
  fs_files (p_fs (sync_entries src dest files p)) !! (dest, u) =
  fs_files (p_fs p) !! (dest, u).
Proof.
  intros Hplain Hu. induction files as [|e files IH] using rev_ind; [done |].
  apply Forall_app in Hplain as [Hpl He]. apply Forall_inv in He.
  destruct (IH Hpl) as [IH1 IH2]. rewrite sync_entries_snoc.
  destruct (skipped e) eqn:Hsk; [by rewrite sync_entry_skipped |].
  assert (Hne : u ≠ path_Base e).
  { rewrite path_Base_plain by done. intros ->. congruence. }
  rewrite sync_entry_state_other by done.
  rewrite sync_entry_other by congruence. done.
Qed.

(** X5: editor files are never units.  For a listing of plain names and a
    map without skipped names, a pass leaves a name ending in [.swp] or [~]
    out of the map and leaves the destination file of that name alone,
    whether or not the name is listed. *)
Theorem sync_skips_editor_files
    (range : gmap string string → list string) (src dest : string)
    (p : pass S) (files : list string) (u : string) :
  range_order range →
  fs_dirs (p_fs p) !! src = Some files → Forall plain files →
  units_only (p_state p) → skipped u = true →
  p_state (sync range src dest p) !! u = None ∧
  fs_files (p_fs (sync range src dest p)) !! (dest, u) = fs_files (p_fs p) !! (dest, u).
Proof.
  intros Hrange Hdir Hplain Hunits Hu.
  assert (Hfinal : units_only (p_state (sync range src dest p)))
    by (by apply (sync_units_only range src dest p files)).
  split.
  - destruct (p_state (sync range src dest p) !! u) eqn:E; [| done].
    assert (skipped u = false) by (apply Hfinal; eauto). congruence.
  - rewrite (sync_listed _ _ _ _ files) by done. simpl.
    set (p1 := sync_entries src dest files (with_ok true p)).
    destruct (sync_entries_skipped_untouched src dest files (with_ok true p) u
      Hplain Hu) as [Hst Hfile]. fold p1 in Hst, Hfile. simpl in Hst, Hfile.
    rewrite <- Hfile.
    apply sync_cleanups_untouched. rewrite (Hrange (p_state p1)).
    rewrite elem_of_elements, elem_of_dom, Hst.
    intros Hk. apply Hunits in Hk. congruence.
Qed.

(** *** The map records fingerprints of source files *)

Lemma sync_entry_records src dest entry p u v :
  p_state (sync_entry src dest entry p) !! u = Some v →
  p_state p !! u = Some v ∨
  ∃ data, fs_files (p_fs p) !! (src, u) = Some data ∧ v = fingerprint data.
Proof.
  intros Hv. destruct (decide (u = path_Base entry)) as [-> | Hne];
    [| left; by rewrite sync_entry_state_other in Hv].
  revert Hv. unfold sync_entry, path_Join.
  repeat (case_match; simplify_eq/=); auto.
  match goal with |- context [sync_install ?u ?n ?t ?c ?cur p] =>
    destruct (sync_install_state_unit u n t c cur p) as [Hs | Hs] end.
  - rewrite Hs. intros [= <-]. right.
    match goal with Hn : not_nil ?o = false |- _ => destruct o; [done |] end.
    match goal with Hg : getChecksum _ (src, _) = (_, None) |- _ =>
      apply getChecksum_ok in Hg as (d & Hd & -> & _) end.
    eauto.
  - rewrite Hs. auto.
Qed.

(** X6: whatever a pass returns, every entry of the map it leaves is either
    an entry it found or the fingerprint of the unit's source file. *)
Theorem sync_records_source_fingerprints
    (range : gmap string string → list string) (src dest : string)
    (p : pass S) (u v : string) :
  p_state (sync range src dest p) !! u = Some v →
  p_state p !! u = Some v ∨
  ∃ data, fs_files (p_fs p) !! (src, u) = Some data ∧ v = fingerprint data.
Proof.
  destruct (fs_dirs (p_fs p) !! src) as [files|] eqn:E;
    [| rewrite sync_not_listed by done; by left].
  rewrite (sync_listed _ _ _ _ files) by done. simpl.
  intros Hv. apply sync_cleanups_subseteq in Hv. clear E. revert v Hv.
  induction files as [|e files IH] using rev_ind; intros v Hv; [by left |].
  rewrite sync_entries_snoc in Hv.
  apply sync_entry_records in Hv as [Hv | (data & Hd & ->)]; [by apply IH |].
  right. exists data. split; [| done].
  by rewrite (sync_entries_src_files src dest files (with_ok true p)) in Hd.
Qed.

(** *** The return value and the log *)

Lemma logged_since_refl p : logged_since p p.
Proof. exists []. simpl. by rewrite app_nil_r, andb_true_r. Qed.

Lemma logged_since_trans p1 p2 p3 :
  logged_since p1 p2 → logged_since p2 p3 → logged_since p1 p3.
Proof.
  intros (e1 & Hl1 & Hk1) (e2 & Hl2 & Hk2). exists (e1 ++ e2).
  split; [by rewrite Hl2, Hl1, app_assoc |].
  rewrite Hk2, Hk1, existsb_app, negb_orb, andb_assoc. done.
Qed.

Lemma logged_since_fail e p :
  is_error_entry e = true → logged_since p (fail e p).
Proof.
  intros He. exists [e]. simpl. rewrite He. simpl. by rewrite andb_false_r.
Qed.

Lemma logged_since_logf e p :
  is_error_entry e = false → logged_since p (logf e p).
Proof.
  intros He. exists [e]. simpl. rewrite He. simpl. by rewrite andb_true_r.
Qed.

Lemma logged_since_same p p' :
  p_log p' = p_log p → p_ok p' = p_ok p → logged_since p p'.
Proof.
  intros Hl Hk. exists []. by rewrite app_nil_r, Hl, Hk, andb_true_r.
Qed.

Lemma sync_apply_logged unit c cur p : logged_since p (sync_apply unit c cur p).
Proof.
  unfold sync_apply.
  repeat (case_match; simplify_eq/=); nil_cases;
    first [ apply logged_since_refl
          | by apply (logged_since_same p)
          | by (eapply logged_since_trans;
                 [| by apply logged_since_fail]; by apply logged_since_same)
          | by (eapply logged_since_trans;
                 [by apply (logged_since_logf (LogStarted unit) p) |];
                 by apply logged_since_same)
          | by (eapply logged_since_trans;
                 [by apply (logged_since_logf (LogRestarted unit) p) |];
                 by apply logged_since_same) ].
Qed.

Lemma sync_install_logged unit name target c cur p :
  logged_since p (sync_install unit name target c cur p).
Proof.
  unfold sync_install.
  destruct (decide (c ≠ cur)); [| apply sync_apply_logged].
  destruct (copyFile name target (p_fs p)) as [fs' [e|]]; simpl.
  - eapply logged_since_trans; [| by apply logged_since_fail].
    by apply logged_since_same.
  - eapply logged_since_trans; [| apply sync_apply_logged].
    eapply logged_since_trans; [| by apply logged_since_logf].
    by apply logged_since_same.
Qed.

Lemma sync_entry_logged src dest entry p :
  logged_since p (sync_entry src dest entry p).
Proof.
  unfold sync_entry.
  repeat (case_match; simplify_eq/=);
    first [ apply logged_since_refl
          | by apply logged_since_fail
          | apply sync_install_logged ].
Qed.

Lemma sync_cleanup_logged src dest unit p :
  logged_since p (sync_cleanup src dest unit p).
Proof.
  unfold sync_cleanup.
  destruct (negb _); [apply logged_since_refl |].
  destruct (EnsureStopped unit (p_sysd p)) as [sd [changed [e|]]]; simpl.
  { eapply logged_since_trans; [| by apply logged_since_fail].
    by apply logged_since_same. }
  set (p1 := if changed then _ else _).
  assert (H1 : logged_since p p1).
  { subst p1. destruct changed.
    - eapply logged_since_trans; [| by apply logged_since_logf].
      by apply logged_since_same.
    - by apply logged_since_same. }
  eapply logged_since_trans; [exact H1 |].
  destruct (os_Remove (p_fs p1) (path_Join dest unit)) as [fs' [e|]]; simpl.
  - eapply logged_since_trans; [| by apply logged_since_fail].
    by apply logged_since_same.
  - eapply logged_since_trans; [| by apply logged_since_same].
    eapply logged_since_trans; [| by apply (logged_since_logf (LogRemoved unit))].
    by apply (logged_since_same p1 (with_fs fs' p1)).
Qed.

(** X7: a pass returns false exactly when it has logged an error: the lines
    it adds to the log hold an error line if and only if the value returned
    is false. *)
Theorem sync_false_iff_error_logged
    (range : gmap string string → list string) (src dest : string) (p : pass S) :
  ∃ ext, p_log (sync range src dest p) = p_log p ++ ext ∧
         p_ok (sync range src dest p) = negb (existsb is_error_entry ext).
Proof.
  assert (H : logged_since (with_ok true p) (sync range src dest p)).
  { unfold sync. destruct (ReadDir (p_fs p) src) as [files [e|]]; simpl.
    - exists [LogListErr (Some e)]. done.
    - eapply logged_since_trans.
      + instantiate (1 := sync_entries src dest files (with_ok true p)).
        generalize (with_ok true p). intros q.
        induction files as [|e files IH] using rev_ind; [apply logged_since_refl |].
        rewrite sync_entries_snoc.
        eapply logged_since_trans; [exact IH | apply sync_entry_logged].
      + generalize (sync_entries src dest files (with_ok true p)). intros q.
        generalize (range (p_state q)). intros units. revert q.
        induction units as [|k units IH]; intros q; [apply logged_since_refl |].
        rewrite sync_cleanups_cons.
        eapply logged_since_trans; [apply sync_cleanup_logged | apply IH]. }
  destruct H as (ext & Hl & Hk). exists ext. done.
Qed.

End Touches.

(** ** More on systemctl *)

(** X8: [Restart] reloads the manager configuration first and restarts the
    unit whether or not it is active.  If the reload fails, the restart
    command is not run and the error is returned; otherwise the call succeeds
    exactly if the restart command does, and then the unit is active. *)
Theorem systemctl_Restart_reloads_first (unit : string) (m : manager) :
  let r := systemctl_Restart unit m in
  m_faulty r.1 = m_faulty m ∧
  (m_faulty m ["daemon-reload"%string] ≠ None →
     r.2 ≠ None ∧ m_active r.1 = m_active m ∧
     m_journal r.1 = m_journal m ++ [["daemon-reload"%string]]) ∧
  (m_faulty m ["daemon-reload"%string] = None →
     m_journal r.1 =
       m_journal m ++ [["daemon-reload"%string]; ["restart"; unit]%string] ∧
     (r.2 = None ↔ m_faulty m ["restart"; unit]%string = None) ∧
     (r.2 = None → m_active r.1 = m_active m ∪ {[unit]}) ∧
     (r.2 ≠ None → m_active r.1 = m_active m)).
Proof.
  simpl. unfold systemctl_Restart, exec, systemctl_cmd. simpl.
  destruct (m_faulty m ["daemon-reload"%string]) as [out|] eqn:Hd; simpl.
  - split; [by destruct (0 <? String.length out)%nat |].
    split; [| done]. intros _.
    by destruct (0 <? String.length out)%nat.
  - destruct (m_faulty m ["restart"%string; unit]) as [out|] eqn:Hr; simpl.
    + split; [by destruct (0 <? String.length out)%nat |].
      split; [done |]. intros _.
      destruct (0 <? String.length out)%nat; simpl; rewrite <- app_assoc;
        (split; [done |]); (split; [done |]); done.
    + split; [done |]. split; [done |]. intros _. rewrite <- app_assoc. done.
Qed.

(** X8 at an inactive unit of a manager in which nothing fails. *)
Lemma systemctl_Restart_reloads_first_witness :
  let r := systemctl_Restart "a.service" (manager_with []) in
  r.2 = None ∧ "a.service"%string ∈ m_active r.1.
Proof.
  intros r.
  destruct (systemctl_Restart_reloads_first "a.service" (manager_with []))
    as (_ & _ & Hok).
  destruct (Hok eq_refl) as (_ & Hiff & Hact & _).
  assert (Hr : r.2 = None) by (by apply Hiff).
  split; [exact Hr |]. unfold r. rewrite (Hact Hr).
  apply elem_of_union. right. by apply elem_of_singleton.
Defined.

(** X9: what "ensure" amounts to.  After [EnsureRunning] returns without an
    error the unit is active.  After [EnsureStopped] returns without an error
    the unit is inactive provided the [is-active] query itself worked; a query
    that fails is taken for "not active", so [EnsureStopped] then reports
    success, runs no [stop] and leaves the unit as it is, and [EnsureRunning]
    runs [restart] even on an active unit. *)
Theorem systemctl_ensure_contract (unit : string) (m : manager) :
  let r := systemctl_EnsureRunning unit m in
  let s := systemctl_EnsureStopped unit m in
  (r.2.2 = None → unit ∈ m_active r.1) ∧
  (m_faulty m (is_active_query unit) = None → s.2.2 = None → unit ∉ m_active s.1) ∧
  (m_faulty m (is_active_query unit) ≠ None →
     s.2 = (false, None) ∧ m_active s.1 = m_active m ∧
     actions (m_journal s.1) = actions (m_journal m) ∧
     r.2.1 = true ∧
     actions (m_journal r.1) = actions (m_journal m) ++ [["restart"; unit]%string]).
Proof.
  simpl. unfold systemctl_EnsureRunning, systemctl_EnsureStopped.
  rewrite isRunning_eq.
  destruct (m_faulty m (is_active_query unit)) as [qout|] eqn:Hq; simpl.
  - unfold exec, systemctl_cmd. simpl.
    destruct (m_faulty m ["restart"%string; unit]) as [out|] eqn:Hr; simpl.
    + split; [by destruct (0 <? String.length out)%nat |].
      split; [done |]. intros _.
      rewrite actions_query.
      destruct (0 <? String.length out)%nat; simpl;
        rewrite !actions_app; simpl; rewrite app_nil_r; done.
    + split.
      { intros _. apply elem_of_union. right. by apply elem_of_singleton. }
      split; [done |]. intros _. rewrite actions_query.
      rewrite !actions_app. simpl. by rewrite app_nil_r.
  - destruct (decide (unit ∈ m_active m)) as [Hin | Hin].
    + rewrite bool_decide_eq_true_2 by done. simpl.
      split; [done |]. split; [| done]. intros _.
      unfold exec, systemctl_cmd. simpl.
      destruct (m_faulty m ["stop"%string; unit]) as [out|] eqn:Hs; simpl.
      * by destruct (0 <? String.length out)%nat.
      * intros _. rewrite elem_of_difference, elem_of_singleton. tauto.
    + rewrite bool_decide_eq_false_2 by done. simpl.
      split; [| done]. unfold exec, systemctl_cmd. simpl.
      destruct (m_faulty m ["restart"%string; unit]) as [out|] eqn:Hr; simpl.
      * by destruct (0 <? String.length out)%nat.
      * intros _. apply elem_of_union. right. by apply elem_of_singleton.
Qed.

(** X9 at an active unit of a manager in which nothing fails. *)
Lemma systemctl_ensure_contract_witness :
  "a.service"%string ∉ m_active (systemctl_EnsureStopped "a.service"
                                   (manager_with ["a.service"%string])).1.
Proof.
  destruct (systemctl_ensure_contract "a.service" (manager_with ["a.service"%string]))
    as (_ & H & _).
  apply H; vm_compute; reflexivity.
Defined.

(** ** How [runLoop] ends *)

Lemma runLoop_from_app {Env : Type} (fn : Env → Env * Z) rs1 rs2 (l l1 : loop Env) :
  runLoop_from fn rs1 l = Running l1 →
  runLoop_from fn (rs1 ++ rs2) l = runLoop_from fn rs2 l1.
Proof.
  revert l. induction rs1 as [|r rs1 IH]; intros l; simpl.
  - by intros [= ->].
  - destruct (runLoop_step fn r l); [apply IH | done].
Qed.

Lemma runLoop_from_running {Env : Type} (fn : Env → Env * Z) rs (l : loop Env) :
  Forall (λ r, closes r = None) rs → ∃ l', runLoop_from fn rs l = Running l'.
Proof.
  intros H. revert l. induction H as [|r rs Hr _ IH]; intros l; simpl; [eauto |].
  destruct r as [| event ok | err ok]; simpl in *.
  - apply IH.
  - destruct ok; [| done]. simpl. destruct (is_change _); apply IH.
  - by destruct ok.
Qed.

(** X10: [runLoop] goes on as long as nothing is closed and the watcher
    reports no error, and returns at the first reception that is one of
    these: [nil] when a channel was closed, the wrapped error when the watcher
    sent one.  On that reception [fn] is not called, and what would have been
    received later plays no part. *)
Theorem runLoop_returns {Env : Type} (fn : Env → Env * Z)
    (rs1 rs2 : list received) (r : received) (err : option error) (l : loop Env) :
  Forall (λ r, closes r = None) rs1 → closes r = Some err →
  ∃ l', runLoop_from fn rs1 l = Running l' ∧
        runLoop_from fn (rs1 ++ r :: rs2) l = Returned l' err.
Proof.
  intros H1 Hr. destruct (runLoop_from_running fn rs1 l H1) as [l' Hl'].
  exists l'. split; [done |]. rewrite (runLoop_from_app fn rs1 _ l l' Hl'). simpl.
  destruct r as [| event ok | e ok]; simpl in *; [done | |].
  - destruct ok; [done |]. by injection Hr as <-.
  - destruct ok; by injection Hr as <-.
Qed.

(** X10 at a timer fire followed by an error of the watcher. *)
Lemma runLoop_returns_witness :
  ∃ l', runLoop_from (λ n : nat, (S n, 5)) [TickerC] (Loop 1 [] 0%nat) = Running l' ∧
        runLoop_from (λ n : nat, (S n, 5))
          ([TickerC] ++ WatcherErrors (EFault EIO) true :: [TickerC]) (Loop 1 [] 0%nat) =
        Returned l' (Some (ErrWatcher (EFault EIO))).
Proof.
  apply (runLoop_returns (λ n : nat, (S n, 5)) [TickerC] [TickerC]
    (WatcherErrors (EFault EIO) true)).
  - repeat constructor.
  - reflexivity.
Defined.

(** ** Notifications that carry several operations *)

(** X17: [fsnotify.Op] is a bit mask, and the [switch] of [runLoop] compares
    it with the four masks by equality.  A notification that carries two
    different operations at once, a write together with a chmod or a create
    together with a write, matches no case: [fn] is not called and the timer
    is left as it was. *)
Theorem runLoop_ignores_combined_ops {Env : Type} (fn : Env → Env * Z)
    (name : string) (a b : N) (l : loop Env) :
  a ∈ [fsnotify.Create; fsnotify.Write; fsnotify.Remove; fsnotify.Rename;
       fsnotify.Chmod] →
  b ∈ [fsnotify.Create; fsnotify.Write; fsnotify.Remove; fsnotify.Rename;
       fsnotify.Chmod] →
  a ≠ b →
  triggers (WatcherEvents (fsnotify.mkEvent name (N.lor a b)) true) = false ∧
  runLoop_step fn (WatcherEvents (fsnotify.mkEvent name (N.lor a b)) true) l =
  Running l.
Proof.
  intros Ha Hb Hab.
  assert (Hc : is_change (N.lor a b) = false).
  { rewrite !elem_of_cons in Ha, Hb.
    destruct Ha as [-> | [-> | [-> | [-> | [-> | Ha]]]]];
      try (by apply elem_of_nil in Ha);
      destruct Hb as [-> | [-> | [-> | [-> | [-> | Hb]]]]];
      try (by apply elem_of_nil in Hb);
      first [reflexivity | by destruct Hab]. }
  unfold triggers, runLoop_step. cbn [negb fsnotify.Op andb]. by rewrite Hc.
Qed.

(** X17 at a write that comes with a chmod. *)
Lemma runLoop_ignores_combined_ops_witness :
  runLoop_step (λ n : nat, (S n, 5))
    (WatcherEvents (fsnotify.mkEvent "/units/a.service" 18) true) (Loop 1 [] 0%nat) =
  Running (Loop 1 [] 0%nat).
Proof.
  refine (proj2 (runLoop_ignores_combined_ops (λ n : nat, (S n, 5)) "/units/a.service"
    fsnotify.Write fsnotify.Chmod (Loop 1 [] 0%nat) _ _ _)).
  - apply elem_of_cons. right. apply elem_of_cons. by left.
  - do 4 (apply elem_of_cons; right). apply elem_of_cons. by left.
  - discriminate.
Defined.

(** ** Entry names *)

Lemma substring_all s : substring 0 (String.length s) s = s.
Proof. induction s as [|c s IH]; simpl; [done | by rewrite IH]. Qed.

Lemma substring_suffix pre suf :
  substring (String.length pre) (String.length suf) (pre +:+ suf) = suf.
Proof. induction pre as [|c pre IH]; simpl; [apply substring_all | exact IH]. Qed.

Lemma substring_split n s :
  (n ≤ String.length s)%nat →
  s = substring 0 n s +:+ substring n (String.length s - n) s.
Proof.
  revert n. induction s as [|c s IH]; intros n Hn; simpl in *.
  - destruct n; [done | lia].
  - destruct n as [|n]; simpl.
    + by rewrite substring_all.
    + change (String c s = String c (substring 0 n s +:+ substring n (String.length s - n) s)).
      f_equal. apply IH. lia.
Qed.

Lemma app_length_string s t :
  String.length (s +:+ t) = (String.length s + String.length t)%nat.
Proof. induction s as [|c s IH]; simpl; [done | by rewrite IH]. Qed.

Lemma HasSuffix_spec s suffix :
  HasSuffix s suffix = true ↔ ∃ pre, s = pre +:+ suffix.
Proof.
  unfold HasSuffix. rewrite andb_true_iff, Nat.leb_le, String.eqb_eq. split.
  - intros [Hlen Hsub].
    exists (substring 0 (String.length s - String.length suffix) s).
    pose proof (substring_split (String.length s - String.length suffix) s) as Hsp.
    replace (String.length s - (String.length s - String.length suffix))%nat
      with (String.length suffix) in Hsp by lia.
    rewrite Hsub in Hsp. apply Hsp. lia.
  - intros [pre ->]. rewrite app_length_string. split; [lia |].
    replace (String.length pre + String.length suffix - String.length suffix)%nat
      with (String.length pre) by lia.
    apply substring_suffix.
Qed.

(** X11: the first loop skips an entry exactly when its name ends in [.swp]
    or in [~]; a name that is just [.swp] or [~] is skipped too, and case
    matters. *)
Theorem skipped_iff_editor_suffix (entry : string) :
  (skipped entry = true ↔
     ∃ pre, entry = pre +:+ ".swp" ∨ entry = pre +:+ "~") ∧
  (∀ (S : Type) (sysd : systemd S) src dest (p : pass S),
     (∃ pre, entry = pre +:+ ".swp" ∨ entry = pre +:+ "~") →
     sync_entry src dest entry p = p).
Proof.
  assert (H : skipped entry = true ↔
     ∃ pre, entry = pre +:+ ".swp" ∨ entry = pre +:+ "~").
  { unfold skipped. rewrite orb_true_iff, !HasSuffix_spec. split.
    - intros [[pre ->] | [pre ->]]; exists pre; auto.
    - intros [pre [-> | ->]]; [left | right]; by exists pre. }
  split; [exact H |].
  intros S sysd src dest p Hs. apply sync_entry_skipped. by apply H.
Qed.

(** X11 at a hidden swap file, and at a name in upper case. *)
Lemma skipped_iff_editor_suffix_witness :
  skipped ".unit.service.swp" = true ∧ skipped "a.SWP" = false.
Proof.
  destruct (skipped_iff_editor_suffix ".unit.service.swp") as [H _].
  split; [| reflexivity]. apply H. exists ".unit.service"%string. by left.
Defined.

Lemma until_slash_no_slash l : slash ∉ until_slash l.
Proof.
  induction l as [|c l IH]; simpl; [apply not_elem_of_nil |].
  unfold is_slash. destruct (Ascii.eqb_spec c slash) as [-> | Hc];
    [apply not_elem_of_nil |].
  apply not_elem_of_cons. split; [congruence | done].
Qed.

(** X12: the unit name [path.Base] makes of an entry name is never empty and
    holds no slash, unless it is the lone [/]; for the names a directory
    listing returns, it is the entry name itself. *)
Theorem path_Base_is_entry_name (entry : string) :
  (path_Base entry = "/"%string ∨ plain (path_Base entry)) ∧
  (plain entry → path_Base entry = entry).
Proof.
  split; [| apply path_Base_plain].
  unfold path_Base. destruct entry as [|a s] eqn:E.
  - right. apply plainb_plain. reflexivity.
  - rewrite <- E.
    set (stripped := drop_slashes (rev (list_ascii_of_string entry))).
    destruct (rev (until_slash stripped)) as [|c l] eqn:El; [by left |].
    right. split.
    + done.
    + rewrite list_ascii_of_string_of_list_ascii, <- El.
      intros Hin. apply list_elem_of_In, in_rev, list_elem_of_In in Hin.
      by apply until_slash_no_slash in Hin.
Qed.

(** X12 at the unit name of the tests. *)
Lemma path_Base_is_entry_name_witness :
  path_Base "test1.service" = "test1.service"%string.
Proof.
  destruct (path_Base_is_entry_name "test1.service") as [_ H].
  apply H. apply plainb_plain. reflexivity.
Defined.

(** ** Entries that outlive their files *)

Section Orphans.
Context {S : Type} `{!systemd S}.
Implicit Types (p : pass S) (src dest unit entry : string).

Lemma sync_entries_untouched src dest files p u :
  (∀ e, e ∈ files → path_Base e ≠ u) →
  p_state (sync_entries src dest files p) !! u = p_state p !! u ∧
  fs_files (p_fs (sync_entries src dest files p)) !! (dest, u) =
  fs_files (p_fs p) !! (dest, u).
Proof.
  induction files as [|e files IH] using rev_ind; intros Hu; [done |].
  rewrite sync_entries_snoc.
  assert (He : path_Base e ≠ u) by (apply Hu, elem_of_app; right; left).
  destruct IH as [IH1 IH2].
  { intros e' He'. apply Hu, elem_of_app. by left. }
  rewrite sync_entry_state_other by done.
  rewrite sync_entry_other by congruence. done.
Qed.

Lemma sync_cleanups_outside_src src dest units p u :
  src ≠ dest →
  fs_files (p_fs (sync_cleanups src dest units p)) !! (src, u) =
  fs_files (p_fs p) !! (src, u).
Proof.
  intros Hne. revert p. induction units as [|k units IH]; intros p; [done |].
  rewrite sync_cleanups_cons, IH, sync_cleanup_other; [done | congruence].
Qed.

(** X13: an entry of the map whose source file and destination record are
    both gone is never forgotten.  The cleanup loop stops the unit and then
    fails to remove the record that is not there, so the pass returns false
    and keeps the entry, and it leaves the two files missing: the next pass
    finds the same. *)
Theorem sync_orphan_entry_stays
    (range : gmap string string → list string) (src dest : string)
    (p : pass S) (files : list string) (u v : string) :
  range_order range →
  fs_dirs (p_fs p) !! src = Some files →
  (∀ e, e ∈ files → path_Base e ≠ u) →
  p_state p !! u = Some v →
  fs_files (p_fs p) !! (src, u) = None →
  fs_files (p_fs p) !! (dest, u) = None →
  let p' := sync range src dest p in
  p_ok p' = false ∧ p_state p' !! u = Some v ∧
  fs_files (p_fs p') !! (src, u) = None ∧
  fs_files (p_fs p') !! (dest, u) = None ∧
  fs_dirs (p_fs p') !! src = Some files.
Proof.
  intros Hrange Hdir Hfiles Hst Hsrc Hdest. simpl.
  destruct (sync_env range src dest p) as [Hdirs _].
  rewrite (sync_listed _ _ _ _ files) in * by done. simpl in *.
  set (p1 := sync_entries src dest files (with_ok true p)) in *.
  destruct (sync_entries_untouched src dest files (with_ok true p) u Hfiles)
    as [Hst1 Hdest1]. fold p1 in Hst1, Hdest1. simpl in Hst1, Hdest1.
  pose proof (sync_entries_src_files src dest files (with_ok true p) u) as Hsrc1.
  fold p1 in Hsrc1. simpl in Hsrc1.
  assert (Hkey : is_Some (p_state p1 !! u)) by (rewrite Hst1, Hst; eauto).
  destruct (sync_cleanups_visit range src dest p1 u Hrange Hkey)
    as (l1 & l2 & _ & _ & _ & Hv). simpl in Hv.
  destruct Hv as (Hfinal & Hpre_st & Hpre_file & Hpre_stat & Hfst & Hffile & Hfok).
  set (pre := sync_cleanups src dest l1 p1) in *.
  assert (Hstat : os_Stat (p_fs pre) (src, u) ≠ None).
  { rewrite Hpre_stat. unfold os_Stat.
    destruct (fs_fault (p_fs p1) OpStat (src, u)); [done |].
    by rewrite Hsrc1, Hsrc. }
  assert (Hrm : (os_Remove (p_fs pre) (dest, u)).2 ≠ None).
  { unfold os_Remove. destruct (fs_fault (p_fs pre) OpRemove (dest, u)); [done |].
    by rewrite Hpre_file, Hdest1, Hdest. }
  destruct (sync_cleanup_absent src dest u pre Hstat) as (_ & Hstop & Hrem & _).
  simpl in Hstop, Hrem.
  assert (Hpost : p_ok (sync_cleanup src dest u pre) = false ∧
                  p_fs (sync_cleanup src dest u pre) = p_fs pre ∧
                  p_state (sync_cleanup src dest u pre) = p_state pre).
  { destruct ((EnsureStopped u (p_sysd pre)).2.2) eqn:E.
    - apply Hstop. done.
    - by apply Hrem. }
  destruct Hpost as (Hok & Hfs & Hstate).
  split; [by apply Hfok |].
  split; [by rewrite Hfst, Hstate, Hpre_st, Hst1 |].
  split; [| split].
  - destruct (decide (src = dest)) as [-> | Hne].
    + by rewrite Hffile, Hfs, Hpre_file, Hdest1.
    + rewrite sync_cleanups_outside_src by done. by rewrite Hsrc1.
  - by rewrite Hffile, Hfs, Hpre_file, Hdest1.
  - by rewrite Hdirs.
Qed.

End Orphans.

(** ** One unit among others *)

Lemma copyFile_succeeds (src dest : string * string) (fs : filesys) data :
  src ≠ dest → fs_files fs !! src = Some data →
  (∀ op, fs_fault fs op src = None) → (∀ op, fs_fault fs op dest = None) →
  ∃ fs', copyFile src dest fs = (fs', None) ∧ fs_files fs' !! dest = Some data.
Proof.
  intros Hne Hsrc Hfs Hfd. unfold copyFile, os_Open, os_Create, io_Copy.
  rewrite (Hfs OpOpen), Hsrc, (Hfd OpCreate). simpl.
  rewrite (Hfs OpRead), (Hfd OpWrite). simpl.
  eexists. split; [reflexivity |]. simpl.
  rewrite lookup_insert_eq, lookup_insert_ne by done. by rewrite Hsrc.
Qed.

Lemma EnsureRunning_succeeds unit m :
  m_faulty m ["restart"; unit]%string = None →
  (systemctl_EnsureRunning unit m).2.2 = None.
Proof.
  intros Hr. unfold systemctl_EnsureRunning. rewrite isRunning_eq.
  destruct (match m_faulty m (is_active_query unit) with
            | Some _ => false | None => bool_decide (unit ∈ m_active m) end);
    [done |].
  unfold exec, systemctl_cmd. simpl. by rewrite Hr.
Qed.

Lemma Restart_succeeds unit m :
  m_faulty m ["daemon-reload"%string] = None →
  m_faulty m ["restart"; unit]%string = None →
  (systemctl_Restart unit m).2 = None.
Proof.
  intros Hd Hr. unfold systemctl_Restart, exec, systemctl_cmd. simpl.
  rewrite Hd. simpl. by rewrite Hr.
Qed.

(** A unit whose files can be read and written and whose service can be
    restarted is installed by its step, whatever state the pass is in. *)
Lemma sync_entry_installs src dest entry (q : pass manager) data :
  skipped entry = false →
  let u := path_Base entry in
  fs_files (p_fs q) !! (src, u) = Some data →
  (∀ op, fs_fault (p_fs q) op (src, u) = None) →
  (∀ op, fs_fault (p_fs q) op (dest, u) = None) →
  m_faulty (p_sysd q) ["daemon-reload"%string] = None →
  m_faulty (p_sysd q) ["restart"; u]%string = None →
  let q' := sync_entry src dest entry q in
  p_state q' !! u = Some (fingerprint data) ∧ p_ok q' = p_ok q ∧
  ∃ data', fs_files (p_fs q') !! (dest, u) = Some data' ∧
           fingerprint data' = fingerprint data.
Proof.
  intros Hsk u Hsrc Hfs Hfd Hmd Hmr. cbv zeta.
  assert (Hc : getChecksum (p_fs q) (src, u) = (fingerprint data, None))
    by (by apply getChecksum_ok_intro).
  assert (Hne0 : fingerprint data ≠ ""%string) by apply fingerprint_not_empty.
  pose proof (EnsureRunning_succeeds u (p_sysd q) Hmr) as Hrun.
  pose proof (Restart_succeeds u (p_sysd q) Hmd Hmr) as Hres.
  destruct (fs_files (p_fs q) !! (dest, u)) as [d0|] eqn:Hdest.
  - assert (Hcur : getChecksum (p_fs q) (dest, u) = (fingerprint d0, None))
      by (by apply getChecksum_ok_intro).
    rewrite (sync_entry_unfold src dest entry q _ _ None Hsk Hc Hcur eq_refl).
    fold u. unfold sync_install.
    destruct (decide (fingerprint data ≠ fingerprint d0)) as [Hd | Hd].
    + assert (Hnt : (src, u) ≠ (dest, u)) by (intros Heq; rewrite Heq in Hsrc; congruence).
      destruct (copyFile_succeeds (src, u) (dest, u) (p_fs q) data Hnt Hsrc Hfs Hfd)
        as (fs' & -> & Hd'). pass_simpl.
      set (q1 := logf (LogWrote u) (with_fs fs' q)).
      destruct (sync_apply_restart u (fingerprint data) (fingerprint d0) q1 Hd
        (fingerprint_not_empty d0)) as [Hsame Hdiff]. cbv zeta in Hsame, Hdiff.
      rewrite sync_apply_fs. pass_simpl.
      destruct (decide (fingerprint data = state_get (p_state q) u)) as [He | He].
      * rewrite (Hsame He). pass_simpl. split; [| split; [done | eauto]].
        subst q1. pass_simpl. unfold state_get in He.
        destruct (p_state q !! u) as [c0|];
          [f_equal; symmetry; exact He | exfalso; exact (Hne0 He)].
      * destruct (Hdiff He) as (_ & Hok & _). destruct (Hok Hres) as [-> ->].
        pass_simpl. rewrite lookup_insert_eq. eauto.
    + assert (He : fingerprint data = fingerprint d0)
        by (destruct (decide (fingerprint data = fingerprint d0)); [done | contradiction]).
      rewrite sync_apply_fs.
      destruct (sync_apply_running u (fingerprint data) (fingerprint d0) q
        (or_introl He)) as (_ & Hok & _). destruct (Hok Hrun) as [-> ->].
      rewrite lookup_insert_eq. eauto.
  - assert (Hcur : getChecksum (p_fs q) (dest, u) = (""%string, Some ENOENT))
      by (by apply getChecksum_absent).
    rewrite (sync_entry_unfold src dest entry q _ _ _ Hsk Hc Hcur eq_refl).
    fold u. unfold sync_install. rewrite decide_True by done.
    assert (Hnt : (src, u) ≠ (dest, u)) by (intros Heq; rewrite Heq in Hsrc; congruence).
    destruct (copyFile_succeeds (src, u) (dest, u) (p_fs q) data Hnt Hsrc Hfs Hfd)
      as (fs' & -> & Hd'). pass_simpl.
    set (q1 := logf (LogWrote u) (with_fs fs' q)).
    rewrite sync_apply_fs.
    destruct (sync_apply_running u (fingerprint data) "" q1 (or_intror eq_refl))
      as (_ & Hok & _). destruct (Hok Hrun) as [-> ->].
    pass_simpl. rewrite lookup_insert_eq. eauto.
Qed.

(** X14: failure isolation.  A listed unit whose own files can be read and
    written and whose service can be reloaded and restarted is installed by
    the pass, whatever goes wrong for the other entries and whatever the pass
    returns: at the end the map records the fingerprint of its source file and
    the destination file has that fingerprint. *)
Theorem sync_isolates_failures
    (range : gmap string string → list string) (src dest : string)
    (p : pass manager) (files : list string) (e : string) (data : list Byte.byte) :
  fs_dirs (p_fs p) !! src = Some files →
  e ∈ files → plain e → skipped e = false →
  fs_files (p_fs p) !! (src, e) = Some data →
  (∀ op, fs_fault (p_fs p) op (src, e) = None) →
  (∀ op, fs_fault (p_fs p) op (dest, e) = None) →
  m_faulty (p_sysd p) ["daemon-reload"%string] = None →
  m_faulty (p_sysd p) ["restart"; e]%string = None →
  let p' := sync range src dest p in
  p_state p' !! e = Some (fingerprint data) ∧
  ∃ data', fs_files (p_fs p') !! (dest, e) = Some data' ∧
           fingerprint data' = fingerprint data.
Proof.
  intros Hdir Hin Hplain Hsk Hsrc Hfs Hfd Hmd Hmr. pass_simpl.
  rewrite (sync_listed _ _ _ _ files) by done. pass_simpl.
  assert (Hloop : ∀ l, e ∈ l →
    let q := sync_entries src dest l (with_ok true p) in
    p_state q !! e = Some (fingerprint data) ∧
    ∃ data', fs_files (p_fs q) !! (dest, e) = Some data' ∧
             fingerprint data' = fingerprint data).
  { induction l as [|e' l IH] using rev_ind; intros Hl; [by apply elem_of_nil in Hl |].
    pass_simpl. rewrite sync_entries_snoc.
    set (q := sync_entries src dest l (with_ok true p)) in *.
    destruct (sync_entries_env src dest l (with_ok true p)) as [_ Hfq].
    fold q in Hfq. pass_simpl in Hfq.
    pose proof (sync_entries_src_files src dest l (with_ok true p) e) as Hsq.
    fold q in Hsq. pass_simpl in Hsq.
    pose proof (sync_entries_after src dest l (with_ok true p)) as [Hmq _].
    fold q in Hmq. pass_simpl in Hmq.
    destruct (decide (skipped e' = false ∧ path_Base e' = e)) as [[Hsk' Hb] | Hother].
    - destruct (sync_entry_installs src dest e' q data Hsk') as (H1 & _ & H2);
        rewrite ?Hb, ?Hfq, ?Hmq, ?Hsq; try done.
      rewrite Hb in H1, H2. done.
    - assert (Hl' : e ∈ l).
      { apply elem_of_app in Hl as [? | Hl]; [done |].
        apply list_elem_of_singleton in Hl as ->. exfalso. apply Hother.
        split; [done | by apply path_Base_plain]. }
      destruct (IH Hl') as [IH1 IH2].
      destruct (skipped e') eqn:Hsk'; [by rewrite sync_entry_skipped |].
      assert (Hne : e ≠ path_Base e') by (intros ->; by apply Hother).
      rewrite sync_entry_state_other by done.
      rewrite sync_entry_other by congruence. done. }
  destruct (Hloop files Hin) as [H1 H2].
  set (p1 := sync_entries src dest files (with_ok true p)) in *.
  assert (Hstat : os_Stat (p_fs p1) (src, e) = None).
  { destruct (sync_entries_env src dest files (with_ok true p)) as [_ Hf1].
    fold p1 in Hf1. pass_simpl in Hf1.
    apply os_Stat_present; [by rewrite Hf1 |].
    unfold p1. rewrite sync_entries_src_files. pass_simpl. rewrite Hsrc. eauto. }
  destruct (sync_cleanups_kept src dest (range (p_state p1)) p1 e Hstat)
    as (-> & -> & _). done.
Qed.

(** X15: a restart that failed is not tried again.  When the restart of a
    changed unit fails, the new file is already in the destination directory
    and the map keeps the old fingerprint.  The next step for the unit finds
    the two files equal and calls [EnsureRunning] instead: if the unit is
    active this runs no command, and the new fingerprint is recorded as if the
    unit had been restarted. *)
Theorem sync_failed_restart_not_retried
    (src dest entry : string) (p : pass manager) (data data0 : list Byte.byte) :
  skipped entry = false →
  let u := path_Base entry in
  fs_files (p_fs p) !! (src, u) = Some data →
  fs_files (p_fs p) !! (dest, u) = Some data0 →
  fingerprint data ≠ fingerprint data0 →
  (∀ op, fs_fault (p_fs p) op (src, u) = None) →
  (∀ op, fs_fault (p_fs p) op (dest, u) = None) →
  fingerprint data ≠ state_get (p_state p) u →
  (systemctl_Restart u (p_sysd p)).2 ≠ None →
  let p1 := sync_entry src dest entry p in
  p_ok p1 = false ∧ p_state p1 = p_state p ∧
  fs_files (p_fs p1) !! (dest, u) = Some data ∧
  ∀ m2, u ∈ m_active m2 → m_faulty m2 (is_active_query u) = None →
    let p2 := sync_entry src dest entry (with_ok true (with_sysd m2 p1)) in
    p_ok p2 = true ∧ p_state p2 !! u = Some (fingerprint data) ∧
    m_active (p_sysd p2) = m_active m2 ∧
    actions (m_journal (p_sysd p2)) = actions (m_journal m2).
Proof.
  intros Hsk u Hsrc Hdest Hfp Hfs Hfd Hstate Hfail. pass_simpl.
  assert (Hc : getChecksum (p_fs p) (src, u) = (fingerprint data, None))
    by (by apply getChecksum_ok_intro).
  assert (Hcur : getChecksum (p_fs p) (dest, u) = (fingerprint data0, None))
    by (by apply getChecksum_ok_intro).
  assert (Hnt : (src, u) ≠ (dest, u)) by (intros Heq; rewrite Heq in Hsrc; congruence).
  destruct (copyFile_succeeds (src, u) (dest, u) (p_fs p) data Hnt Hsrc Hfs Hfd)
    as (fs' & Hcp & Hd').
  pose proof (copyFile_env _ _ _ _ _ Hcp) as [_ Hfault'].
  assert (Hsrc' : fs_files fs' !! (src, u) = Some data).
  { by rewrite (copyFile_other _ _ _ _ _ _ Hcp). }
  assert (Hp1 : sync_entry src dest entry p =
                sync_apply u (fingerprint data) (fingerprint data0)
                  (logf (LogWrote u) (with_fs fs' p))).
  { rewrite (sync_entry_unfold src dest entry p _ _ None Hsk Hc Hcur eq_refl).
    fold u. unfold sync_install. rewrite decide_True by done. by rewrite Hcp. }
  rewrite Hp1.
  set (q1 := logf (LogWrote u) (with_fs fs' p)).
  destruct (sync_apply_restart u (fingerprint data) (fingerprint data0) q1 Hfp
    (fingerprint_not_empty data0)) as [_ Hdiff]. cbv zeta in Hdiff.
  destruct (Hdiff Hstate) as (_ & _ & Hbad). destruct (Hbad Hfail) as [Hst1 Hok1].
  set (p1 := sync_apply u (fingerprint data) (fingerprint data0) q1) in *.
  assert (Hfs1 : p_fs p1 = fs') by (unfold p1; by rewrite sync_apply_fs).
  split; [done |]. split; [done |]. split; [by rewrite Hfs1 |].
  intros m2 Hact Hq.
  set (q2 := with_ok true (with_sysd m2 p1)).
  assert (Hc2 : getChecksum (p_fs q2) (src, u) = (fingerprint data, None)).
  { unfold q2. pass_simpl. rewrite Hfs1. apply getChecksum_ok_intro; by rewrite ?Hfault'. }
  assert (Hcur2 : getChecksum (p_fs q2) (dest, u) = (fingerprint data, None)).
  { unfold q2. pass_simpl. rewrite Hfs1. apply getChecksum_ok_intro; by rewrite ?Hfault'. }
  rewrite (sync_entry_unfold src dest entry q2 _ _ None Hsk Hc2 Hcur2 eq_refl).
  fold u. unfold sync_install. rewrite decide_False by (intros Hn; done).
  rewrite (sync_apply_running_eq u _ _ q2
    (Manager (m_active m2) (m_faulty m2) (m_journal m2 ++ [is_active_query u]))).
  - unfold q2. pass_simpl. cbn [m_active m_journal]. rewrite lookup_insert_eq, actions_query. done.
  - by left.
  - by apply EnsureRunning_active.
Qed.

(** ** The properties above at concrete collaborators *)

(** X4 at the source file of a unit that a pass installs. *)
Lemma sync_writes_destination_only_witness :
  let p := main_init (testfs [("a.service", "X")] [])%string (FakeSystemd "") in
  fs_files (p_fs (sync sorted_keys "/units" "/etc" p)) !! ("/units", "a.service")%string =
  fs_files (p_fs p) !! ("/units", "a.service")%string.
Proof.
  intros p.
  destruct (sync_writes_destination_only sorted_keys "/units" "/etc" p) as [H _].
  apply H. discriminate.
Defined.

(** X5 at a listed swap file. *)
Lemma sync_skips_editor_files_witness :
  let p := main_init (testfs [("a.service", "X"); ("b.swp", "Y")] [])%string
             (FakeSystemd "") in
  p_state (sync sorted_keys "/units" "/etc" p) !! "b.swp"%string = None ∧
  fs_files (p_fs (sync sorted_keys "/units" "/etc" p)) !! ("/etc", "b.swp")%string =
  fs_files (p_fs p) !! ("/etc", "b.swp")%string.
Proof.
  intros p.
  pose proof (testfs_listing [("a.service", "X"); ("b.swp", "Y")] [] eq_refl)%string
    as (Hdir & Hplain & _).
  apply (sync_skips_editor_files sorted_keys "/units" "/etc" p
    ["a.service"; "b.swp"]%string "b.swp" sorted_keys_order Hdir Hplain).
  - intros u [v Hv]. exfalso. revert Hv. clear. intros Hv.
    unfold p in Hv. cbn [p_state main_init] in Hv.
    rewrite lookup_empty in Hv. discriminate Hv.
  - reflexivity.
Defined.

(** X6 at the entry the first pass of [main] makes for a unit. *)
Lemma sync_records_source_fingerprints_witness :
  let p := main_init (testfs [("a.service", "X")] [])%string (FakeSystemd "") in
  p_state p !! "a.service"%string = Some (fingerprint (bytes_of_string "X")) ∨
  ∃ data, fs_files (p_fs p) !! ("/units", "a.service")%string = Some data ∧
          fingerprint (bytes_of_string "X") = fingerprint data.
Proof.
  intros p.
  apply (sync_records_source_fingerprints sorted_keys "/units" "/etc" p).
  vm_compute. reflexivity.
Defined.

(** X13 at a map with one entry and two empty directories. *)
Lemma sync_orphan_entry_stays_witness :
  let p := Pass (testfs [] []) (FakeSystemd "") []
             {[ "a.service"%string := "0"%string ]} true in
  let p' := sync sorted_keys "/units" "/etc" p in
  p_ok p' = false ∧ p_state p' !! "a.service"%string = Some "0"%string ∧
  fs_files (p_fs p') !! ("/units", "a.service")%string = None ∧
  fs_files (p_fs p') !! ("/etc", "a.service")%string = None ∧
  fs_dirs (p_fs p') !! "/units"%string = Some [].
Proof.
  intros p.
  apply (sync_orphan_entry_stays sorted_keys "/units" "/etc" p [] "a.service" "0"
    sorted_keys_order).
  - reflexivity.
  - intros e He. by apply elem_of_nil in He.
  - reflexivity.
  - reflexivity.
  - reflexivity.
Defined.

(** X14 beside a listed unit whose file is gone: the pass returns false and
    the readable unit is installed all the same. *)
Lemma sync_isolates_failures_witness :
  let fs := Filesys (dir_files "/units" [("a.service", "X")])%string
              {[ "/units"%string := ["a.service"; "b.service"]%string ]} no_faults at_once in
  let p' := sync sorted_keys "/units" "/etc" (main_init fs (manager_with [])) in
  p_ok p' = false ∧
  p_state p' !! "a.service"%string = Some (fingerprint (bytes_of_string "X")) ∧
  ∃ data', fs_files (p_fs p') !! ("/etc", "a.service")%string = Some data' ∧
           fingerprint data' = fingerprint (bytes_of_string "X").
Proof.
  intros fs p'. split; [vm_compute; reflexivity |].
  apply (sync_isolates_failures sorted_keys "/units" "/etc"
    (main_init fs (manager_with [])) ["a.service"; "b.service"]%string
    "a.service" (bytes_of_string "X")).
  - reflexivity.
  - apply elem_of_cons. by left.
  - apply plainb_plain. reflexivity.
  - reflexivity.
  - reflexivity.
  - intros op. reflexivity.
  - intros op. reflexivity.
  - reflexivity.
  - reflexivity.
Defined.

(** X15 with a manager in which [systemctl restart a.service] fails during
    the first step and the unit is found active in the second. *)
Lemma sync_failed_restart_not_retried_witness :
  let p := Pass (testfs [("a.service", "Y")] [("a.service", "X")])%string
             (manager_failing ["a.service"%string] [["restart"; "a.service"]%string])
             [] {[ "a.service"%string := fingerprint (bytes_of_string "X") ]} true in
  let p1 := sync_entry "/units" "/etc" "a.service" p in
  let p2 := sync_entry "/units" "/etc" "a.service"
              (with_ok true (with_sysd (manager_with ["a.service"%string]) p1)) in
  p_ok p1 = false ∧
  p_ok p2 = true ∧
  p_state p2 !! "a.service"%string = Some (fingerprint (bytes_of_string "Y")) ∧
  actions (m_journal (p_sysd p2)) = [].
Proof.
  intros p p1 p2.
  destruct (sync_failed_restart_not_retried "/units" "/etc" "a.service" p
    (bytes_of_string "Y") (bytes_of_string "X") eq_refl)
    as (Hok1 & _ & _ & Hnext).
  - reflexivity.
  - reflexivity.
  - vm_compute. discriminate.
  - intros op. reflexivity.
  - intros op. reflexivity.
  - vm_compute. discriminate.
  - vm_compute. discriminate.
  - split; [exact Hok1 |].
    destruct (Hnext (manager_with ["a.service"%string])) as (Hok2 & Hst2 & _ & Hact).
    + apply (bool_decide_unpack _). vm_compute. exact I.
    + reflexivity.
    + split; [exact Hok2 |]. split; [exact Hst2 |]. exact Hact.
Defined.

(** ** The life of one unit, as [TestSync] runs it *)

Lemma app_slash_inj (n m r1 r2 : string) :
  slash ∉ list_ascii_of_string n → slash ∉ list_ascii_of_string m →
  (r1 = ""%string ∨ ∃ r, r1 = String slash r) →
  (r2 = ""%string ∨ ∃ r, r2 = String slash r) →
  n +:+ r1 = m +:+ r2 → n = m ∧ r1 = r2.
Proof.
  revert m. induction n as [|a n IH]; intros [|c m] Hn Hm H1 H2 Heq.
  - done.
  - exfalso. cbn in Heq. destruct H1 as [-> | [r ->]]; [discriminate |].
    injection Heq as <- _. apply Hm. cbn. by apply elem_of_cons; left.
  - exfalso. cbn in Heq. destruct H2 as [-> | [r ->]]; [discriminate |].
    injection Heq as -> _. apply Hn. cbn. by apply elem_of_cons; left.
  - cbn in Heq. injection Heq as -> Heq. cbn in Hn, Hm.
    apply not_elem_of_cons in Hn as [_ Hn]. apply not_elem_of_cons in Hm as [_ Hm].
    destruct (IH m Hn Hm H1 H2 Heq) as [-> ->]. done.
Qed.

Lemma dir_of_inj (ns nd : list string) :
  Forall entry_name ns → Forall entry_name nd → dir_of ns = dir_of nd → ns = nd.
Proof.
  assert (Hshape : ∀ l, dir_of l = ""%string ∨ ∃ r, dir_of l = String slash r).
  { intros [|n l]; [by left | right]. cbn. by eexists. }
  intros Hns. revert nd. induction Hns as [|n ns Hn _ IH]; intros nd Hnd Heq.
  - destruct nd; [done | discriminate].
  - destruct Hnd as [|m nd Hm Hnd]; [discriminate |].
    cbn in Heq. injection Heq as Heq.
    change (n +:+ dir_of ns = m +:+ dir_of nd) in Heq.
    apply app_slash_inj in Heq as [-> Heq];
      [| apply Hn | apply Hm | apply Hshape | apply Hshape].
    by rewrite (IH nd Hnd Heq).
Qed.

Lemma apart_ne (src dest : string) : apart src dest → src ≠ dest.
Proof.
  intros (ns & nd & Hns & Hnd & -> & -> & Hp & _) Heq.
  apply Hp. by rewrite (dir_of_inj ns nd Hns Hnd Heq).
Qed.

Section Life.
Variable range : gmap string string → list string.
Hypothesis range_perm : range_order range.
Variables src dest u : string.
Hypothesis dirs_apart : apart src dest.
Hypothesis u_name : entry_name u.
Hypothesis u_unit : skipped u = false.
Implicit Types p q : pass fakeSystemd.

Lemma src_dest : src ≠ dest.
Proof. by apply apart_ne. Qed.

Lemma u_plain : plain u.
Proof. apply u_name. Qed.

Lemma range_singleton c : range {[ u := c ]} = [u].
Proof.
  apply Permutation_singleton_r. rewrite (range_perm {[ u := c ]}).
  by rewrite dom_singleton_L, elements_singleton.
Qed.

Lemma range_empty : range ∅ = [].
Proof.
  apply Permutation_nil_r. rewrite (range_perm ∅).
  by rewrite dom_empty_L, elements_empty.
Qed.

(* the first loop, for the three ways it can find the one unit *)
Lemma life_step q x d st :
  stage src dest u q [u] (Some x) d st →
  let q1 := sync_entry src dest u q in
  (d = None ∨ d = Some x →
     stage src dest u q1 [u] (Some x) (Some x) (<[u := fingerprint x]> st) ∧
     p_ok q1 = p_ok q ∧ p_sysd q1 = FakeSystemd ("EnsureRunning " +:+ u) ∧
     (d = Some x → p_fs q1 = p_fs q ∧ p_log q1 = p_log q)) ∧
  (∀ x0, d = Some x0 → fingerprint x ≠ fingerprint x0 →
     fingerprint x ≠ state_get st u →
     stage src dest u q1 [u] (Some x) (Some x) (<[u := fingerprint x]> st) ∧
     p_ok q1 = p_ok q ∧ p_sysd q1 = FakeSystemd ("Restart " +:+ u)).
Proof.
  intros (Hh & Hdir & Hs & Hd & Hst). cbv zeta.
  assert (Hb : path_Base u = u) by (apply path_Base_plain, u_plain).
  assert (Hc : getChecksum (p_fs q) (src, path_Base u) = (fingerprint x, None)).
  { rewrite Hb. apply getChecksum_ok_intro; [exact Hs | apply Hh | apply Hh]. }
  assert (Hnt : (src, u) ≠ (dest, u)) by (intros [= Heq]; exact (src_dest Heq)).
  destruct (copyFile_succeeds (src, u) (dest, u) (p_fs q) x Hnt Hs
    (λ op, Hh op _) (λ op, Hh op _)) as (fs' & Hcp & Hd').
  pose proof (copyFile_env _ _ _ _ _ Hcp) as [Hdirs' Hfault'].
  assert (Hs' : fs_files fs' !! (src, u) = Some x).
  { rewrite (copyFile_other _ _ _ _ _ _ Hcp); [exact Hs | exact Hnt]. }
  assert (Hh' : healthy fs').
  { intros op k. rewrite Hfault'. apply Hh. }
  split.
  - intros Hcase.
    assert (Hq1 : ∃ fs1 lg,
      sync_entry src dest u q =
      with_state (<[u := fingerprint x]> (p_state q))
        (with_sysd (FakeSystemd ("EnsureRunning " +:+ u))
           (Pass fs1 (p_sysd q) lg (p_state q) (p_ok q))) ∧
      healthy fs1 ∧ fs_dirs fs1 = fs_dirs (p_fs q) ∧
      fs_files fs1 !! (src, u) = Some x ∧ fs_files fs1 !! (dest, u) = Some x ∧
      (d = Some x → fs1 = p_fs q ∧ lg = p_log q)).
    { destruct Hcase as [-> | ->].
      - exists fs', (p_log q ++ [LogWrote u]).
        assert (Hcur : getChecksum (p_fs q) (dest, path_Base u) =
                       (""%string, Some ENOENT)).
        { rewrite Hb. apply getChecksum_absent; [exact Hd | apply Hh]. }
        rewrite (sync_entry_unfold src dest u q _ _ _ u_unit Hc Hcur eq_refl).
        rewrite Hb. unfold sync_install.
        rewrite decide_True by apply fingerprint_not_empty. rewrite Hcp.
        pass_simpl.
        rewrite (sync_apply_running_eq u _ _ _ (FakeSystemd ("EnsureRunning " +:+ u)));
          [| right; reflexivity | reflexivity].
        split; [reflexivity |]. repeat split; first [assumption | discriminate].
      - exists (p_fs q), (p_log q).
        assert (Hcur : getChecksum (p_fs q) (dest, path_Base u) =
                       (fingerprint x, None)).
        { rewrite Hb. apply getChecksum_ok_intro; [exact Hd | apply Hh | apply Hh]. }
        rewrite (sync_entry_unfold src dest u q _ _ _ u_unit Hc Hcur eq_refl).
        rewrite Hb. unfold sync_install.
        rewrite decide_False by (intros Hn; exact (Hn eq_refl)).
        rewrite (sync_apply_running_eq u _ _ _ (FakeSystemd ("EnsureRunning " +:+ u)));
          [| left; reflexivity | reflexivity].
        split; [by destruct q |]. repeat split; try assumption; reflexivity. }
    destruct Hq1 as (fs1 & lg & -> & Hh1 & Hdir1 & Hs1 & Hd1 & Hsame).
    unfold stage. pass_simpl. rewrite Hdir1, Hst.
    repeat split; try assumption; try reflexivity.
    + match goal with Hx : d = Some x |- _ => by destruct (Hsame Hx) as [-> _] end.
    + match goal with Hx : d = Some x |- _ => by destruct (Hsame Hx) as [_ ->] end.
  - intros x0 -> Hfp Hrec.
    assert (Hcur : getChecksum (p_fs q) (dest, path_Base u) = (fingerprint x0, None)).
    { rewrite Hb. apply getChecksum_ok_intro; [exact Hd | apply Hh | apply Hh]. }
    rewrite (sync_entry_unfold src dest u q _ _ _ u_unit Hc Hcur eq_refl).
    rewrite Hb. unfold sync_install. rewrite decide_True by exact Hfp. rewrite Hcp.
    pass_simpl.
    set (q1 := logf (LogWrote u) (with_fs fs' q)).
    destruct (sync_apply_restart u (fingerprint x) (fingerprint x0) q1 Hfp
      (fingerprint_not_empty x0)) as [_ Hdiff]. cbv zeta in Hdiff.
    destruct Hdiff as (Hsd & Hok & _).
    { unfold q1. pass_simpl. by rewrite Hst. }
    destruct (Hok eq_refl) as [Hst1 Hok1].
    unfold stage. rewrite sync_apply_fs, Hst1, Hok1, Hsd. unfold q1. pass_simpl.
    rewrite Hdirs', Hst. repeat split; try assumption; reflexivity.
Qed.

(* the cleanup loop when the unit file is there *)
Lemma life_keep q1 x d c :
  stage src dest u q1 [u] (Some x) d {[ u := c ]} →
  sync_cleanups src dest (range (p_state q1)) q1 = q1.
Proof.
  intros (Hh & _ & Hs & _ & Hst). rewrite Hst, range_singleton.
  simpl. apply sync_cleanup_present. apply os_Stat_present; [apply Hh |].
  rewrite Hs. eauto.
Qed.

(* the cleanup loop when the unit file is gone *)
Lemma life_drop q y c :
  healthy (p_fs q) → fs_files (p_fs q) !! (src, u) = None →
  fs_files (p_fs q) !! (dest, u) = Some y → p_state q = {[ u := c ]} →
  let q1 := sync_cleanups src dest (range (p_state q)) q in
  p_ok q1 = p_ok q ∧ fs_files (p_fs q1) !! (dest, u) = None ∧
  p_sysd q1 = FakeSystemd ("EnsureStopped " +:+ u) ∧ p_state q1 = ∅.
Proof.
  intros Hh Hs Hd Hst. cbv zeta. rewrite Hst, range_singleton.
  unfold sync_cleanups. cbn [fold_left].
  unfold sync_cleanup, path_Join, os_Stat, os_Remove.
  rewrite (Hh OpStat), Hs. cbn [negb not_nil].
  cbn [EnsureStopped fake fakeSystemd_EnsureStopped]. pass_simpl.
  rewrite (Hh OpRemove), Hd. pass_simpl. cbn [fs_files with_files].
  rewrite lookup_delete_eq, Hst, delete_singleton_eq. done.
Qed.

Lemma life_unlisted p :
  fs_dirs (p_fs p) !! src = Some [] →
  sync range src dest p =
  sync_cleanups src dest (range (p_state (with_ok true p))) (with_ok true p).
Proof. intros H. by rewrite (sync_listed _ _ _ _ []). Qed.

Lemma life_listed p :
  fs_dirs (p_fs p) !! src = Some [u] →
  sync range src dest p =
  sync_cleanups src dest (range (p_state (sync_entry src dest u (with_ok true p))))
    (sync_entry src dest u (with_ok true p)).
Proof. intros H. by rewrite (sync_listed _ _ _ _ [u]). Qed.

(** X16: the scenario of [TestSync], for two directories that lie apart, any
    unit name and any two contents
    with different fingerprints.  With no unit the pass returns true and
    calls nothing.  Once the unit file is written the pass copies it and
    calls [EnsureRunning]; run again, it copies nothing and ends the same;
    once the file is overwritten the pass copies the new content and calls
    [Restart]; once the file is removed the pass calls [EnsureStopped],
    removes the copy and empties the map.  Every pass returns true. *)
Theorem fakeSystemd_life_of_a_unit (x y : list Byte.byte) :
  fingerprint x ≠ fingerprint y →
  let p1 := sync range src dest
              (main_init (Filesys ∅ {[ src := [] ]} no_faults at_once) (FakeSystemd "")) in
  let p2 := sync range src dest (put_source src u x p1) in
  let p3 := sync range src dest p2 in
  let p4 := sync range src dest (put_source src u y p3) in
  let p5 := sync range src dest (drop_source src u p4) in
  (p_ok p1 = true ∧ p_sysd p1 = FakeSystemd "" ∧ p_state p1 = ∅) ∧
  (p_ok p2 = true ∧ fs_files (p_fs p2) !! (dest, u) = Some x ∧
   p_sysd p2 = FakeSystemd ("EnsureRunning " +:+ u) ∧
   p_state p2 = {[ u := fingerprint x ]}) ∧
  (p_ok p3 = true ∧ p_fs p3 = p_fs p2 ∧ p_state p3 = p_state p2 ∧
   p_log p3 = p_log p2) ∧
  (p_ok p4 = true ∧ fs_files (p_fs p4) !! (dest, u) = Some y ∧
   p_sysd p4 = FakeSystemd ("Restart " +:+ u) ∧
   p_state p4 = {[ u := fingerprint y ]}) ∧
  (p_ok p5 = true ∧ fs_files (p_fs p5) !! (dest, u) = None ∧
   p_sysd p5 = FakeSystemd ("EnsureStopped " +:+ u) ∧
   p_state p5 = ∅).
Proof.
  intros Hxy p1.
  set (p0 := main_init (Filesys ∅ {[ src := [] ]} no_faults at_once) (FakeSystemd "")).
  (* zero units *)
  assert (H1 : p1 = p0).
  { unfold p1. rewrite (sync_listed _ _ _ _ []) by apply lookup_singleton_eq.
    cbv zeta. unfold sync_entries. cbn [fold_left]. unfold p0 at 1.
    cbn [p_state main_init with_ok]. by rewrite range_empty. }
  clearbody p1. subst p1. intros p2.
  (* create unit *)
  assert (S1 : stage src dest u (with_ok true (put_source src u x p0)) [u]
                 (Some x) None ∅).
  { unfold stage, healthy, put_source, p0. pass_simpl.
    cbn [fs_fault fs_dirs fs_files p_fs main_init].
    rewrite !lookup_insert_eq. rewrite lookup_insert_ne by (intros [= Heq]; exact (src_dest Heq)).
    rewrite lookup_empty. done. }
  destruct (life_step _ x None ∅ S1) as [Hrun _].
  destruct (Hrun (or_introl eq_refl)) as (S2 & Hok2 & Hsd2 & _). clear Hrun.
  rewrite insert_empty in S2.
  assert (E2 : p2 = sync_entry src dest u (with_ok true (put_source src u x p0))).
  { unfold p2. rewrite life_listed by apply S1. apply (life_keep _ x (Some x) (fingerprint x)); assumption. }
  clearbody p2. subst p2.
  set (p2 := sync_entry src dest u (with_ok true (put_source src u x p0))) in *.
  intros p3.
  (* no change *)
  assert (S2' : stage src dest u (with_ok true p2) [u] (Some x) (Some x)
                  {[ u := fingerprint x ]}) by apply S2.
  destruct (life_step _ x (Some x) _ S2') as [Hrun _].
  destruct (Hrun (or_intror eq_refl)) as (S3 & Hok3 & Hsd3 & Hsame3). clear Hrun.
  destruct (Hsame3 eq_refl) as [Hfs3 Hlog3].
  rewrite insert_singleton_eq in S3.
  assert (E3 : p3 = sync_entry src dest u (with_ok true p2)).
  { unfold p3. rewrite life_listed by apply S2. apply (life_keep _ x (Some x) (fingerprint x)); assumption. }
  clearbody p3. subst p3.
  set (p3 := sync_entry src dest u (with_ok true p2)) in *.
  intros p4.
  (* change unit *)
  assert (S3' : stage src dest u (with_ok true (put_source src u y p3)) [u]
                  (Some y) (Some x) {[ u := fingerprint x ]}).
  { destruct S3 as (Hh & _ & _ & Hd & Hst). unfold stage, healthy, put_source.
    pass_simpl. cbn [fs_fault fs_dirs fs_files].
    rewrite !lookup_insert_eq. rewrite lookup_insert_ne by (intros [= Heq]; exact (src_dest Heq)). done. }
  destruct (life_step _ y (Some x) _ S3') as [_ Hres].
  destruct (Hres x eq_refl) as (S4 & Hok4 & Hsd4).
  { intros Heq. apply Hxy. by symmetry. }
  { unfold state_get. rewrite lookup_singleton_eq. intros Heq. apply Hxy. by symmetry. }
  clear Hres. rewrite insert_singleton_eq in S4.
  assert (E4 : p4 = sync_entry src dest u (with_ok true (put_source src u y p3))).
  { unfold p4. rewrite life_listed by apply S3'. apply (life_keep _ y (Some y) (fingerprint y)); assumption. }
  clearbody p4. subst p4.
  set (p4 := sync_entry src dest u (with_ok true (put_source src u y p3))) in *.
  intros p5.
  (* remove unit *)
  assert (E5 : p_ok p5 = true ∧ fs_files (p_fs p5) !! (dest, u) = None ∧
               p_sysd p5 = FakeSystemd ("EnsureStopped " +:+ u) ∧ p_state p5 = ∅).
  { destruct S4 as (Hh4 & _ & _ & Hd4 & Hst4).
    unfold p5. rewrite life_unlisted
      by (unfold drop_source; pass_simpl; cbn [fs_dirs]; apply lookup_insert_eq).
    destruct (life_drop (with_ok true (drop_source src u p4)) y (fingerprint y))
      as (Hok5 & Hd5 & Hsd5 & Hst5).
    - exact Hh4.
    - unfold drop_source. pass_simpl. cbn [fs_files]. apply lookup_delete_eq.
    - unfold drop_source. pass_simpl. cbn [fs_files].
      rewrite lookup_delete_ne by (intros [= Heq]; exact (src_dest Heq)). exact Hd4.
    - exact Hst4.
    - repeat split; assumption. }
  destruct S2 as (_ & _ & _ & Hd2 & Hst2).
  destruct S3 as (_ & _ & _ & Hd3 & Hst3).
  destruct S4 as (_ & _ & _ & Hd4 & Hst4).
  destruct E5 as (? & ? & ? & ?).
  pass_simpl in Hok2. pass_simpl in Hok3. pass_simpl in Hok4.
  pass_simpl in Hfs3. pass_simpl in Hlog3.
  repeat split; first [assumption | reflexivity | congruence].
Qed.

End Life.

(** X16 at the names and contents of [TestSync], with the map ranged over
    in sorted order. *)
Lemma fakeSystemd_life_of_a_unit_witness :
  let src := "/units"%string in
  let dest := "/etc"%string in
  let u := "test1.service"%string in
  let x := bytes_of_string "test1" in
  let y := bytes_of_string "test2" in
  fingerprint x ≠ fingerprint y ∧
  let p1 := sync sorted_keys src dest
              (main_init (Filesys ∅ {[ src := [] ]} no_faults at_once) (FakeSystemd "")) in
  let p2 := sync sorted_keys src dest (put_source src u x p1) in
  let p3 := sync sorted_keys src dest p2 in
  let p4 := sync sorted_keys src dest (put_source src u y p3) in
  let p5 := sync sorted_keys src dest (drop_source src u p4) in
  (p_ok p1 = true ∧ p_sysd p1 = FakeSystemd "" ∧ p_state p1 = ∅) ∧
  (p_ok p2 = true ∧ fs_files (p_fs p2) !! (dest, u) = Some x ∧
   p_sysd p2 = FakeSystemd ("EnsureRunning " +:+ u) ∧
   p_state p2 = {[ u := fingerprint x ]}) ∧
  (p_ok p3 = true ∧ p_fs p3 = p_fs p2 ∧ p_state p3 = p_state p2 ∧
   p_log p3 = p_log p2) ∧
  (p_ok p4 = true ∧ fs_files (p_fs p4) !! (dest, u) = Some y ∧
   p_sysd p4 = FakeSystemd ("Restart " +:+ u) ∧
   p_state p4 = {[ u := fingerprint y ]}) ∧
  (p_ok p5 = true ∧ fs_files (p_fs p5) !! (dest, u) = None ∧
   p_sysd p5 = FakeSystemd ("EnsureStopped " +:+ u) ∧
   p_state p5 = ∅).
Proof.
  intros src dest u x y.
  assert (Hxy : fingerprint x ≠ fingerprint y) by (vm_compute; discriminate).
  split; [exact Hxy |].
  refine (fakeSystemd_life_of_a_unit sorted_keys sorted_keys_order src dest u
    _ _ eq_refl x y Hxy).
  - exists ["units"%string], ["etc"%string].
    split; [| split; [| split; [reflexivity | split; [reflexivity |]]]].
    + constructor; [| constructor]. split; [by apply plainb_plain | by split].
    + constructor; [| constructor]. split; [by apply plainb_plain | by split].
    + split; intros [k Hk]; discriminate Hk.
  - split; [by apply plainb_plain | by split].
Defined.
